(** * gem5 results analysis: statistics extraction and aggregation

    A shallow embedding of [Part2-Practical-Exploration/analyze_results.py]:
    the regular-expression scan of a [stats.txt] report, the numeric
    conversion of the captured tokens, the derived ratios, the loading of
    the experiment directories, the comparison rows and the entry point.

    Conventions of the embedding.
    - A Python [str] is a [string]; each character is one code point
      below 256.
    - A Python [float] is an IEEE 754 binary64 number, a [spec_float] with
      precision 53 and maximal exponent 1024.
    - A Python [int] is an unbounded [Z]; [int()] is taken without the
      interpreter's optional limit on the number of digits.
    - A Python [dict] with string keys is a [gmap string _]; where the
      iteration order of a dict is observable the keys are kept in a list. *)

From Stdlib Require Import ZArith QArith Qabs Ascii String List SpecFloat.
From stdpp Require Import base option list list_monad sorting gmap strings.

Local Open Scope Z_scope.

(** ** Python values, exceptions and results *)

Inductive PyVal : Type :=
| PyInt (z : Z)
| PyFloat (f : spec_float)
| PyStr (s : string).

Inductive PyExn : Type :=
| ValueError
| TypeError
| OverflowError
| ZeroDivisionError
| FileNotFoundError
| NotADirectoryError
| IsADirectoryError.

Inductive result (A : Type) : Type :=
| Ok (a : A)
| Raise (e : PyExn).

Arguments Ok {A} a.
Arguments Raise {A} e.

#[global] Instance result_ret : MRet result := fun _ a => Ok a.

#[global] Instance result_bind : MBind result := fun _ _ k r =>
  match r with
  | Ok a => k a
  | Raise e => Raise e
  end.

(** A [for] loop whose body may raise or have effects: the body runs on
    each element in turn, threading the value it updates. *)
Fixpoint foldM {M : Type -> Type} `{!MBind M, !MRet M} {A B : Type}
    (f : B -> A -> M B) (l : list A) (b : B) : M B :=
  match l with
  | [] => mret b
  | x :: l' => b' ← f b x; foldM f l' b'
  end.

(** ** Characters *)

(** The code point of a character. *)
Definition code (c : ascii) : N := N_of_ascii c.

(** [\d]: a decimal digit. *)
Definition is_digit (c : ascii) : bool :=
  ((48 <=? code c) && (code c <=? 57))%N.

(** [\s]: the white space of a [str] pattern, that is the characters for
    which [str.isspace] holds: tab to carriage return, the four
    separators 28 to 31, the space, and among the code points below 256
    also next-line (133) and the no-break space (160). *)
Definition is_space (c : ascii) : bool :=
  let n := code c in
  (((9 <=? n) && (n <=? 13)) || ((28 <=? n) && (n <=? 32))
   || (n =? 133) || (n =? 160))%N.

(** [[\d\.e\-\+]]: a digit, a dot, a lower-case [e], a minus or a plus. *)
Definition is_numchar (c : ascii) : bool :=
  is_digit c
  || Ascii.eqb c "."%char || Ascii.eqb c "e"%char
  || Ascii.eqb c "-"%char || Ascii.eqb c "+"%char.

(** The digit a character spells. *)
Definition digit_val (c : ascii) : Z := Z.of_N (code c) - 48.

(** The value of a run of decimal digits, most significant first. *)
Definition digits_val (ds : list ascii) : Z :=
  fold_left (fun acc c => 10 * acc + digit_val c) ds 0.

(** ** Floating point: binary64 *)

(** The precision and the exponent bound of binary64; [0.0] and [1.0]. *)
Definition prec : Z := 53.
Definition emax : Z := 1024.

Definition f_zero : spec_float := S754_zero false.
Definition f_one : spec_float := S754_finite false 4503599627370496 (-52).

Definition is_inf (f : spec_float) : bool :=
  match f with S754_infinity _ => true | _ => false end.

Definition is_fzero (f : spec_float) : bool :=
  match f with S754_zero _ => true | _ => false end.

(** The double nearest to [m * 10 ^ e10] (ties to even), with the sign
    [neg]; this is what [float()] returns for a decimal literal. A
    magnitude beyond the largest double gives an infinity, not an error. *)
Definition float_of_decimal (neg : bool) (m : Z) (e10 : Z) : spec_float :=
  match m with
  | Z0 => S754_zero neg
  | Zpos p =>
      if 0 <=? e10
      then binary_round prec emax neg (p * Z.to_pos (10 ^ e10)) 0
      else SFdiv prec emax (S754_finite neg p 0)
                           (S754_finite false (Z.to_pos (10 ^ (- e10))) 0)
  | Zneg _ => S754_nan
  end.

(** [float(n)] for an [int]: the nearest double, [OverflowError] when the
    integer is too large. *)
Definition float_of_int (z : Z) : result spec_float :=
  let f := binary_normalize prec emax z 0 false in
  if is_inf f then Raise OverflowError else Ok f.

(** The double nearest to the quotient of two integers (ties to even),
    for a divisor that is not zero; an infinity when the quotient is
    beyond the largest double. *)
Definition int_quotient (a b : Z) : spec_float :=
  match a with
  | Z0 => S754_zero (b <? 0)
  | _ =>
      SFdiv prec emax
        (S754_finite (a <? 0) (Z.to_pos (Z.abs a)) 0)
        (S754_finite (b <? 0) (Z.to_pos (Z.abs b)) 0)
  end.

(** [a / b] on two [int]s: the correctly rounded quotient;
    [ZeroDivisionError] for a zero divisor and [OverflowError] when the
    quotient is too large for a double. *)
Definition int_truediv (a b : Z) : result spec_float :=
  if b =? 0 then Raise ZeroDivisionError
  else
    let f := int_quotient a b in
    if is_inf f then Raise OverflowError else Ok f.

(** [x / y] on two [float]s. *)
Definition float_truediv (x y : spec_float) : result spec_float :=
  if is_fzero y then Raise ZeroDivisionError else Ok (SFdiv prec emax x y).

(** ** The operators the derived metrics apply to report values *)

(** [v > 0] *)
Definition py_gt_zero (v : PyVal) : result bool :=
  match v with
  | PyInt z => Ok (0 <? z)
  | PyFloat f => Ok (SFltb f_zero f)
  | PyStr _ => Raise TypeError
  end.

(** [a + b] *)
Definition py_add (a b : PyVal) : result PyVal :=
  match a, b with
  | PyInt x, PyInt y => Ok (PyInt (x + y))
  | PyFloat x, PyFloat y => Ok (PyFloat (SFadd prec emax x y))
  | PyInt x, PyFloat y =>
      fx ← float_of_int x; Ok (PyFloat (SFadd prec emax fx y))
  | PyFloat x, PyInt y =>
      fy ← float_of_int y; Ok (PyFloat (SFadd prec emax x fy))
  | PyStr x, PyStr y => Ok (PyStr (x +:+ y))
  | _, _ => Raise TypeError
  end.

(** [a / b] *)
Definition py_truediv (a b : PyVal) : result PyVal :=
  match a, b with
  | PyInt x, PyInt y => f ← int_truediv x y; Ok (PyFloat f)
  | PyFloat x, PyFloat y => f ← float_truediv x y; Ok (PyFloat f)
  | PyInt x, PyFloat y =>
      fx ← float_of_int x; f ← float_truediv fx y; Ok (PyFloat f)
  | PyFloat x, PyInt y =>
      fy ← float_of_int y; f ← float_truediv x fy; Ok (PyFloat f)
  | _, _ => Raise TypeError
  end.

(** [1.0 - v] *)
Definition py_one_minus (v : PyVal) : result PyVal :=
  match v with
  | PyInt z => f ← float_of_int z; Ok (PyFloat (SFsub prec emax f_one f))
  | PyFloat f => Ok (PyFloat (SFsub prec emax f_one f))
  | PyStr _ => Raise TypeError
  end.

(** ** Numeric conversion of a captured token *)

(** The digits at the head of a text, and what follows them. *)
Fixpoint span_digits (s : list ascii) : list ascii * list ascii :=
  match s with
  | c :: s' =>
      if is_digit c
      then let '(ds, r) := span_digits s' in (c :: ds, r)
      else ([], s)
  | [] => ([], [])
  end.

(** An optional sign: whether it is a minus, and what follows it. *)
Definition split_sign (s : list ascii) : bool * list ascii :=
  match s with
  | c :: s' =>
      if Ascii.eqb c "-"%char then (true, s')
      else if Ascii.eqb c "+"%char then (false, s')
      else (false, s)
  | [] => (false, [])
  end.

(** [int(value)] on a token: an optional sign and one or more digits. *)
Definition py_int (value : string) : result Z :=
  let '(neg, s1) := split_sign (list_ascii_of_string value) in
  let '(ds, rest) := span_digits s1 in
  match ds, rest with
  | _ :: _, [] => Ok (if neg then - digits_val ds else digits_val ds)
  | _, _ => Raise ValueError
  end.

(** [e] or [E] *)
Definition is_exp_marker (c : ascii) : bool :=
  Ascii.eqb c "e"%char || Ascii.eqb c "E"%char.

(** The exponent part of a decimal literal: absent, or a marker, an
    optional sign and one or more digits up to the end of the token. *)
Definition parse_exponent (s : list ascii) : result Z :=
  match s with
  | [] => Ok 0
  | c :: r =>
      if is_exp_marker c then
        let '(eneg, r1) := split_sign r in
        let '(ed, r2) := span_digits r1 in
        match ed, r2 with
        | _ :: _, [] => Ok (if eneg then - digits_val ed else digits_val ed)
        | _, _ => Raise ValueError
        end
      else Raise ValueError
  end.

(** [float(value)] on a token: an optional sign, digits with an optional
    dot (at least one digit on one side of it), an optional exponent. *)
Definition py_float (value : string) : result spec_float :=
  let '(neg, s1) := split_sign (list_ascii_of_string value) in
  let '(ip, s2) := span_digits s1 in
  let '(fp, s3) :=
    match s2 with
    | c :: r => if Ascii.eqb c "."%char then span_digits r else ([], s2)
    | [] => ([], s2)
    end in
  match ip ++ fp with
  | [] => Raise ValueError
  | _ :: _ =>
      e ← parse_exponent s3;
      Ok (float_of_decimal neg (digits_val (ip ++ fp))
                           (e - Z.of_nat (length fp)))
  end.

(** ['.' in value or 'e' in value.lower()] *)
Definition looks_float (value : string) : bool :=
  existsb (fun c => Ascii.eqb c "."%char || is_exp_marker c)
          (list_ascii_of_string value).

(** The body of the [try]: the converted value, or [ValueError]. *)
Definition convert (value : string) : result PyVal :=
  if looks_float value
  then f ← py_float value; Ok (PyFloat f)
  else z ← py_int value; Ok (PyInt z).

(** The [try] with its [except ValueError]: the raw token is kept when the
    conversion fails. *)
Definition convert_or_raw (value : string) : PyVal :=
  match convert value with
  | Ok v => v
  | Raise _ => PyStr value
  end.

(** ** Regular expressions

    The fragment the catalog of patterns is written in: literal text,
    a greedy one-or-more repetition of a character class, one capture
    group, and concatenation. Matching backtracks as [re] does: a
    repetition first takes as many characters as it can and gives them
    back one at a time when the rest of the pattern fails. *)

Inductive cclass : Type :=
| Cdigit   (* \d *)
| Cspace   (* \s *)
| Cnum.    (* [\d\.e\-\+] *)

Definition in_class (k : cclass) (c : ascii) : bool :=
  match k with
  | Cdigit => is_digit c
  | Cspace => is_space c
  | Cnum => is_numchar c
  end.

Inductive regex : Type :=
| Lit (p : string)
| Plus (k : cclass)
| Group (r : regex)
| Seq (r1 r2 : regex).

Fixpoint strip_prefix (p s : list ascii) : option (list ascii) :=
  match p, s with
  | [], _ => Some s
  | a :: p', b :: s' => if Ascii.eqb a b then strip_prefix p' s' else None
  | _ :: _, [] => None
  end.

(** [k+] followed by the continuation [kont]: the longest run first, then
    shorter ones, never the empty one. *)
Fixpoint plus_bt {A : Type} (k : cclass) (s : list ascii)
    (kont : list ascii -> option A) : option A :=
  match s with
  | c :: s' =>
      if in_class k c then
        match plus_bt k s' kont with
        | Some r => Some r
        | None => kont s'
        end
      else None
  | [] => None
  end.

(** A match of [r] at the start of [s]; [cap] is the text of group 1 so
    far and [kont] matches what follows [r]. *)
Fixpoint re_match (r : regex) (s : list ascii) (cap : option (list ascii))
    (kont : list ascii -> option (list ascii) -> option (list ascii))
    : option (list ascii) :=
  match r with
  | Lit p =>
      match strip_prefix (list_ascii_of_string p) s with
      | Some s' => kont s' cap
      | None => None
      end
  | Plus k => plus_bt k s (fun s' => kont s' cap)
  | Group r' =>
      re_match r' s cap
        (fun s' _ => kont s' (Some (take (length s - length s')%nat s)))
  | Seq r1 r2 =>
      re_match r1 s cap (fun s' cap' => re_match r2 s' cap' kont)
  end.

(** Group 1 of the match of [r] that starts exactly at the head of [s].
    Every pattern of the catalog has one group, which takes part in every
    match. *)
Definition re_match_at (r : regex) (s : list ascii) : option (list ascii) :=
  re_match r s None (fun _ cap => cap).

(** The leftmost match: each start position in turn, from the left. *)
Fixpoint re_search_from (r : regex) (s : list ascii) : option (list ascii) :=
  match re_match_at r s with
  | Some value => Some value
  | None =>
      match s with
      | [] => None
      | _ :: s' => re_search_from r s'
      end
  end.

(** [re.search(pattern, content)] followed by [match.group(1)]. *)
Definition re_search (pattern : regex) (content : string) : option string :=
  string_of_list_ascii <$> re_search_from pattern (list_ascii_of_string content).

(** The longest run of characters of class [k] at the head of [s], and
    what follows it. *)
Fixpoint span_class (k : cclass) (s : list ascii) : list ascii * list ascii :=
  match s with
  | c :: s' =>
      if in_class k c
      then let '(run, r) := span_class k s' in (c :: run, r)
      else ([], s)
  | [] => ([], [])
  end.

(** ** The catalog of metrics *)

(** [key\s+(k+)] *)
Definition stat_line (key : string) (k : cclass) : regex :=
  Seq (Lit key) (Seq (Plus Cspace) (Group (Plus k))).

(** What a pattern [key\s+(k+)] does at one position, without
    backtracking: the key, the longest run of white space, the longest run
    of [k]; both runs non-empty. *)
Definition scan_stat_line (key : list ascii) (k : cclass) (s : list ascii)
    : option (list ascii) :=
  match strip_prefix key s with
  | None => None
  | Some s1 =>
      match span_class Cspace s1 with
      | ([], _) => None
      | (_ :: _, s2) =>
          match span_class k s2 with
          | ([], _) => None
          | (tok, _) => Some tok
          end
      end
  end.

(** The dict [patterns], in the order it is written. *)
Definition patterns : list (string * regex) :=
  [ ("sim_seconds", stat_line "sim_seconds" Cnum);
    ("sim_insts", stat_line "sim_insts" Cdigit);
    ("host_inst_rate", stat_line "host_inst_rate" Cnum);
    ("committedInsts", stat_line "system.cpu.committedInsts" Cdigit);
    ("numCycles", stat_line "system.cpu.numCycles" Cdigit);
    ("ipc", stat_line "system.cpu.ipc" Cnum);
    ("branch_lookups", stat_line "system.cpu.branchPred.lookups" Cdigit);
    ("branch_condPredicted",
       stat_line "system.cpu.branchPred.condPredicted" Cdigit);
    ("branch_condIncorrect",
       stat_line "system.cpu.branchPred.condIncorrect" Cdigit);
    ("icache_overall_hits",
       stat_line "system.cpu.icache.overall_hits::total" Cdigit);
    ("icache_overall_misses",
       stat_line "system.cpu.icache.overall_misses::total" Cdigit);
    ("dcache_overall_hits",
       stat_line "system.cpu.dcache.overall_hits::total" Cdigit);
    ("dcache_overall_misses",
       stat_line "system.cpu.dcache.overall_misses::total" Cdigit);
    ("l2cache_overall_hits",
       stat_line "system.l2cache.overall_hits::total" Cdigit);
    ("l2cache_overall_misses",
       stat_line "system.l2cache.overall_misses::total" Cdigit);
    ("fetch_rate", stat_line "system.cpu.fetch.rate" Cnum);
    ("decode_rate", stat_line "system.cpu.decode.rate" Cnum);
    ("rename_rate", stat_line "system.cpu.rename.rate" Cnum);
    ("iew_rate", stat_line "system.cpu.iew.rate" Cnum);
    ("commit_rate", stat_line "system.cpu.commit.rate" Cnum);
    ("rob_reads", stat_line "system.cpu.rob.reads" Cdigit);
    ("rob_writes", stat_line "system.cpu.rob.writes" Cdigit);
    ("iq_reads", stat_line "system.cpu.iq.reads" Cdigit);
    ("iq_writes", stat_line "system.cpu.iq.writes" Cdigit) ].

(** ** Extraction of the primary metrics *)

(** One turn of the loop over [patterns.items()]. *)
Definition extract_step (content : string) (metrics : gmap string PyVal)
    (entry : string * regex) : gmap string PyVal :=
  match re_search entry.2 content with
  | Some value => <[entry.1 := convert_or_raw value]> metrics
  | None => metrics
  end.

(** The loop, from the empty [metrics]. *)
Definition extract_metrics (content : string) : gmap string PyVal :=
  fold_left (extract_step content) patterns ∅.

(** ** Derived metrics *)

(** The [if] that writes [branch_accuracy]. *)
Definition branch_accuracy_step (metrics : gmap string PyVal)
    : result (gmap string PyVal) :=
  match metrics !! "branch_condPredicted", metrics !! "branch_condIncorrect" with
  | Some predicted, Some incorrect =>
      positive ← py_gt_zero predicted;
      if positive : bool then
        ratio ← py_truediv incorrect predicted;
        accuracy ← py_one_minus ratio;
        Ok (<["branch_accuracy" := accuracy]> metrics)
      else Ok (<["branch_accuracy" := PyFloat f_zero]> metrics)
  | _, _ => Ok metrics
  end.

(** One turn of the loop over the three cache names. *)
Definition hit_rate_step (metrics : gmap string PyVal) (cache : string)
    : result (gmap string PyVal) :=
  let hits_key := cache +:+ "_overall_hits" in
  let misses_key := cache +:+ "_overall_misses" in
  match metrics !! hits_key, metrics !! misses_key with
  | Some hits, Some misses =>
      total_accesses ← py_add hits misses;
      positive ← py_gt_zero total_accesses;
      if positive : bool then
        rate ← py_truediv hits total_accesses;
        Ok (<[cache +:+ "_hit_rate" := rate]> metrics)
      else Ok (<[cache +:+ "_hit_rate" := PyFloat f_zero]> metrics)
  | _, _ => Ok metrics
  end.

Definition caches : list string := ["icache"; "dcache"; "l2cache"].

(** The derived metrics: the accuracy, then the three hit rates. *)
Definition derive_metrics (metrics : gmap string PyVal)
    : result (gmap string PyVal) :=
  m ← branch_accuracy_step metrics;
  foldM hit_rate_step caches m.

(** What [parse_stats_file] computes from the text it has read. *)
Definition parse_stats_text (content : string) : result (gmap string PyVal) :=
  derive_metrics (extract_metrics content).

(** ** The state of a run

    A path is the string the script builds; [p / name] joins with a
    slash. The file system maps a path to a regular file with its text or
    to a directory with the names of its entries, in the order [iterdir]
    yields them. Every access is recorded, so that a run can be asked
    which paths it touched. The analyzer object has one attribute that
    changes, [self.experiments]; it is part of the state. A dict whose
    iteration order the script observes is a list of pairs in insertion
    order. *)

Record workload_data : Type := WorkloadData {
  stats : gmap string PyVal;
  config_path : option string
}.

Inductive fs_node : Type :=
| File (content : string)
| Dir (entries : list string).

Inductive fs_event : Type :=
| EvExists (p : string)
| EvIsDir (p : string)
| EvIterdir (p : string)
| EvOpenRead (p : string)
| EvOpenWrite (p : string).

Record world : Type := World {
  experiments : list (string * list (string * workload_data));
  fs : gmap string fs_node;
  stdout : list string;       (* the lines printed, oldest first *)
  trace : list fs_event       (* the file-system accesses, oldest first *)
}.

Definition IO (A : Type) : Type := world -> result A * world.

#[global] Instance IO_ret : MRet IO := fun _ a w => (Ok a, w).

#[global] Instance IO_bind : MBind IO := fun _ _ k c w =>
  match c w with
  | (Ok a, w') => k a w'
  | (Raise e, w') => (Raise e, w')
  end.

Definition lift_result {A : Type} (r : result A) : IO A := fun w => (r, w).

Definition log (ev : fs_event) : IO unit := fun w =>
  (Ok tt, World (experiments w) (fs w) (stdout w) (trace w ++ [ev])).

(** [print(line)] *)
Definition print (line : string) : IO unit := fun w =>
  (Ok tt, World (experiments w) (fs w) (stdout w ++ [line]) (trace w)).

Definition lookup_node (p : string) : IO (option fs_node) := fun w =>
  (Ok (fs w !! p), w).

Definition get_experiments
    : IO (list (string * list (string * workload_data))) := fun w =>
  (Ok (experiments w), w).

Definition set_experiments
    (e : list (string * list (string * workload_data))) : IO unit := fun w =>
  (Ok tt, World e (fs w) (stdout w) (trace w)).

(** [d[k] = v] on a dict in insertion order: a key already there keeps
    its place. *)
Fixpoint odict_set {V : Type} (k : string) (v : V) (d : list (string * V))
    : list (string * V) :=
  match d with
  | [] => [(k, v)]
  | (k', v') :: d' =>
      if String.eqb k' k then (k, v) :: d' else (k', v') :: odict_set k v d'
  end.

Fixpoint odict_get {V : Type} (k : string) (d : list (string * V)) : option V :=
  match d with
  | [] => None
  | (k', v') :: d' => if String.eqb k' k then Some v' else odict_get k d'
  end.

(** [os.path.exists(p)] and [Path.exists()] *)
Definition path_exists (p : string) : IO bool :=
  _ ← log (EvExists p);
  n ← lookup_node p;
  mret (bool_decide (is_Some n)).

(** [Path.is_dir()] *)
Definition is_dir (p : string) : IO bool :=
  _ ← log (EvIsDir p);
  n ← lookup_node p;
  mret (match n with Some (Dir _) => true | _ => false end).

(** [p / name] *)
Definition path_join (p name : string) : string := p +:+ "/" +:+ name.

(** [Path.iterdir()]: the names of the entries of a directory. *)
Definition iterdir (p : string) : IO (list string) :=
  _ ← log (EvIterdir p);
  n ← lookup_node p;
  match n with
  | Some (Dir entries) => mret entries
  | Some (File _) => lift_result (Raise NotADirectoryError)
  | None => lift_result (Raise FileNotFoundError)
  end.

(** [open(p, 'r')] followed by [f.read()] *)
Definition read_text (p : string) : IO string :=
  _ ← log (EvOpenRead p);
  n ← lookup_node p;
  match n with
  | Some (File content) => mret content
  | Some (Dir _) => lift_result (Raise IsADirectoryError)
  | None => lift_result (Raise FileNotFoundError)
  end.

Definition store_file (p content : string) : IO unit := fun w =>
  (Ok tt, World (experiments w) (<[p := File content]> (fs w))
                (stdout w) (trace w)).

(** Writing [content] to the file at [p], as [to_csv] and [savefig] do. *)
Definition write_text (p content : string) : IO unit :=
  _ ← log (EvOpenWrite p);
  n ← lookup_node p;
  match n with
  | Some (Dir _) => lift_result (Raise IsADirectoryError)
  | _ => store_file p content
  end.

(** ** [parse_stats_file] *)

(** The method: the look-up of the path, the warning or the read, and
    the report of the text. *)
Definition parse_stats_file (stats_path : string) : IO (gmap string PyVal) :=
  found ← path_exists stats_path;
  if negb found then
    _ ← print ("Warning: Stats file not found: " +:+ stats_path);
    mret ∅
  else
    content ← read_text stats_path;
    lift_result (parse_stats_text content).

(** ** Loading the experiment directories *)

Definition experiment_dirs : list string :=
  ["basic_pipeline"; "branch_prediction"; "superscalar"; "smt"].

(** One turn of the loop over [exp_path.iterdir()]. *)
Definition load_workload (exp_path : string)
    (experiment_data : list (string * workload_data)) (workload_name : string)
    : IO (list (string * workload_data)) :=
  let workload_dir := path_join exp_path workload_name in
  d ← is_dir workload_dir;
  if d : bool then
    let stats_file := path_join workload_dir "stats.txt" in
    let config_file := path_join workload_dir "config.ini" in
    st ← parse_stats_file stats_file;
    has_config ← path_exists config_file;
    mret (odict_set workload_name
            (WorkloadData st (if has_config : bool then Some config_file else None))
            experiment_data)
  else mret experiment_data.

(** [load_experiment_data]: the workloads of one experiment. *)
Definition load_experiment_data (exp_path : string)
    : IO (list (string * workload_data)) :=
  names ← iterdir exp_path;
  foldM (load_workload exp_path) names [].

(** One turn of the loop over [experiment_dirs]. *)
Definition load_experiment (results_base_dir : string) (_ : unit)
    (exp_dir : string) : IO unit :=
  let exp_path := path_join results_base_dir exp_dir in
  found ← path_exists exp_path;
  if found : bool then
    data ← load_experiment_data exp_path;
    exps ← get_experiments;
    set_experiments (odict_set exp_dir data exps)
  else mret tt.

(** [load_experiment_results]: it fills [self.experiments]. *)
Definition load_experiment_results (results_base_dir : string) : IO unit :=
  foldM (load_experiment results_base_dir) experiment_dirs tt.

(** ** The comparison table *)

Record row : Type := Row {
  experiment : string;
  workload : string;
  ipc : PyVal;
  sim_seconds : PyVal;
  committedInsts : PyVal;
  branch_accuracy : PyVal;
  dcache_hit_rate : PyVal;
  l2cache_hit_rate : PyVal
}.

(** [stats.get(key, 0)] *)
Definition stats_get (st : gmap string PyVal) (key : string) : PyVal :=
  default (PyInt 0) (st !! key).

Definition make_row (exp_name workload_name : string) (data : workload_data)
    : row :=
  let st := stats data in
  {| experiment := exp_name;
     workload := workload_name;
     ipc := stats_get st "ipc";
     sim_seconds := stats_get st "sim_seconds";
     committedInsts := stats_get st "committedInsts";
     branch_accuracy := stats_get st "branch_accuracy";
     dcache_hit_rate := stats_get st "dcache_hit_rate";
     l2cache_hit_rate := stats_get st "l2cache_hit_rate" |}.

(** The two nested loops that fill [comparison_data]. *)
Definition comparison_rows
    (exps : list (string * list (string * workload_data))) : list row :=
  foldl (fun comparison_data exp =>
           foldl (fun acc wl => acc ++ [make_row exp.1 wl.1 wl.2])
                 comparison_data exp.2)
        [] exps.

(** ** What the script leaves to its libraries and to string formatting

    The layout of a printed table, of the CSV text and of the figure, the
    fixed-point formatting of a double, [str()] of a value and
    [str.upper] are not part of the script; they are parameters. *)

Class Rendering : Type := {
  df_to_string : list row -> string;
  df_to_csv : list row -> string;
  ipc_figure : list row -> string;
  format_4f : spec_float -> string;
  py_str : PyVal -> string;
  str_upper : string -> string
}.

(** The newline, and the line of sixty equal signs. *)
Definition nl : string := String (ascii_of_nat 10) EmptyString.

Definition rule : string :=
  "============================================================".

(** ** The [ipc] column and its averages

    [idxmax] and [groupby(...).mean()] are calls into pandas. They are
    taken at the documented behaviour of the library on a numeric column:
    the values as binary64 numbers, the mean of a group as the sum of its
    values over their number, the groups in increasing order of their
    label. The sum is taken in the order of the rows. A column that holds
    a string, or an integer beyond the doubles, is outside this and is
    rendered as an exception. *)

(** A numeric column as pandas holds it, in binary64. *)
Definition as_float64 (v : PyVal) : result spec_float :=
  match v with
  | PyFloat f => Ok f
  | PyInt z => float_of_int z
  | PyStr _ => Raise TypeError
  end.

(** The number of values of a group, as a double. *)
Definition float_of_nat (n : nat) : spec_float :=
  binary_normalize prec emax (Z.of_nat n) 0 false.

(** The running sum and count of one group. *)
Definition group_add (acc : gmap string (spec_float * nat)) (label : string)
    (x : spec_float) : gmap string (spec_float * nat) :=
  let '(s, n) := default (f_zero, 0%nat) (acc !! label) in
  <[label := (SFadd prec emax s x, S n)]> acc.

(** One pass over the labelled values, from the first row to the last. *)
Definition group_sums (labelled : list (string * spec_float))
    : gmap string (spec_float * nat) :=
  foldl (fun acc lx => group_add acc lx.1 lx.2) ∅ labelled.

(** The order of the groups: by label. *)
Definition label_le (a b : string * (spec_float * nat)) : Prop :=
  (a.1 ≤ b.1)%string.

#[global] Instance label_le_dec : RelDecision label_le.
Proof. intros a b. unfold label_le. apply _. Defined.

(** [groupby(label)[column].mean()]: one pass over the rows that adds
    each value to the sum of its label and counts it, then sum over
    count for each label, the labels in increasing order. *)
Definition group_means (labelled : list (string * spec_float))
    : list (string * spec_float) :=
  (fun e : string * (spec_float * nat) =>
     (e.1, SFdiv prec emax e.2.1 (float_of_nat e.2.2)))
  <$> merge_sort label_le (map_to_list (group_sums labelled)).

(** [df.groupby(key)['ipc'].mean()] *)
Definition groupby_ipc_mean (key : row -> string) (df : list row)
    : result (list (string * spec_float)) :=
  col ← mapM as_float64 (ipc <$> df);
  Ok (group_means (zip (key <$> df) col)).

Fixpoint idxmax_go (best : nat) (bv : spec_float) (i : nat)
    (xs : list spec_float) : nat :=
  match xs with
  | [] => best
  | x :: xs' =>
      if SFltb bv x then idxmax_go i x (S i) xs'
      else idxmax_go best bv (S i) xs'
  end.

(** [df['ipc'].idxmax()]: the first row that holds the largest value. *)
Definition idxmax (xs : list spec_float) : option nat :=
  match xs with
  | [] => None
  | x :: xs' => Some (idxmax_go 0 x 1 xs')
  end.

(** The command line after [parse_args]. *)
Record Args : Type := { results_dir : string; output_format : string }.

Section Report.
Context {rendering : Rendering}.

(** [f"{v:.4f}"] *)
Definition py_format_4f (v : PyVal) : result string :=
  match v with
  | PyFloat f => Ok (format_4f f)
  | PyInt z => f ← float_of_int z; Ok (format_4f f)
  | PyStr _ => Raise ValueError
  end.

Definition print_4f (label : string) (v : PyVal) : IO unit :=
  s ← lift_result (py_format_4f v);
  print (label +:+ s).

Definition generate_performance_comparison (results_base_dir : string)
    : IO (option (list row)) :=
  _ ← print (nl +:+ "=== Performance Comparison Analysis ===");
  exps ← get_experiments;
  let df := comparison_rows exps in
  match df with
  | _ :: _ =>
      _ ← print (nl +:+ "Performance Summary:");
      _ ← print (df_to_string df);
      let csv_path := path_join results_base_dir "performance_comparison.csv" in
      _ ← write_text csv_path (df_to_csv df);
      _ ← print (nl +:+ "Detailed results saved to: " +:+ csv_path);
      mret (Some df)
  | [] =>
      _ ← print "No experiment data found!";
      mret None
  end.

Definition plot_ipc_comparison (results_base_dir : string)
    (df : option (list row)) : IO unit :=
  match df with
  | None | Some [] => mret tt
  | Some rows =>
      let plot_path := path_join results_base_dir "ipc_comparison.png" in
      _ ← write_text plot_path (ipc_figure rows);
      print ("IPC comparison plot saved to: " +:+ plot_path)
  end.

Definition analyze_branch_prediction_impact : IO unit :=
  exps ← get_experiments;
  match odict_get "branch_prediction" exps with
  | None => print "Branch prediction experiment data not found"
  | Some bp_data =>
      _ ← print (nl +:+ "=== Branch Prediction Analysis ===");
      foldM (fun (_ : unit) (wl : string * workload_data) =>
               let st := stats wl.2 in
               _ ← print (nl +:+ str_upper wl.1 +:+ ":");
               _ ← print_4f "  IPC: " (stats_get st "ipc");
               _ ← print_4f "  Branch Accuracy: " (stats_get st "branch_accuracy");
               _ ← print ("  Branch Lookups: "
                          +:+ py_str (stats_get st "branch_lookups"));
               print ("  Branch Mispredictions: "
                      +:+ py_str (stats_get st "branch_condIncorrect")))
            bp_data tt
  end.

Definition analyze_superscalar_scaling : IO unit :=
  exps ← get_experiments;
  match odict_get "superscalar" exps with
  | None => print "Superscalar experiment data not found"
  | Some ss_data =>
      _ ← print (nl +:+ "=== Superscalar Scaling Analysis ===");
      foldM (fun (_ : unit) (wl : string * workload_data) =>
               let st := stats wl.2 in
               _ ← print (nl +:+ str_upper wl.1 +:+ ":");
               _ ← print_4f "  IPC: " (stats_get st "ipc");
               _ ← print_4f "  Fetch Rate: " (stats_get st "fetch_rate");
               _ ← print_4f "  Decode Rate: " (stats_get st "decode_rate");
               print_4f "  Commit Rate: " (stats_get st "commit_rate"))
            ss_data tt
  end.

Definition print_averages (avgs : list (string * spec_float)) : IO unit :=
  foldM (fun (_ : unit) (e : string * spec_float) =>
           print ("  " +:+ e.1 +:+ ": " +:+ format_4f e.2))
        avgs tt.

Definition key_insights (df : option (list row)) : IO unit :=
  match df with
  | None | Some [] => mret tt
  | Some rows =>
      col ← lift_result (mapM as_float64 (ipc <$> rows));
      match idxmax col ≫= (fun i => rows !! i) with
      | None => mret tt
      | Some best_ipc =>
          s ← lift_result (py_format_4f (ipc best_ipc));
          _ ← print ("Best IPC: " +:+ s +:+ " (" +:+ experiment best_ipc
                     +:+ " - " +:+ workload best_ipc +:+ ")");
          workload_avg ← lift_result (groupby_ipc_mean workload rows);
          _ ← print (nl +:+ "Average IPC by workload:");
          _ ← print_averages workload_avg;
          exp_avg ← lift_result (groupby_ipc_mean experiment rows);
          _ ← print (nl +:+ "Average IPC by experiment:");
          print_averages exp_avg
      end
  end.

Definition generate_summary_report (results_base_dir : string) : IO unit :=
  _ ← print (nl +:+ rule);
  _ ← print "           GEM5 ILP EXPERIMENT SUMMARY REPORT";
  _ ← print rule;
  _ ← load_experiment_results results_base_dir;
  df ← generate_performance_comparison results_base_dir;
  _ ← plot_ipc_comparison results_base_dir df;
  _ ← analyze_branch_prediction_impact;
  _ ← analyze_superscalar_scaling;
  _ ← print (nl +:+ "=== Key Insights ===");
  _ ← key_insights df;
  _ ← print (nl +:+ rule);
  print "Analysis complete! Check the results directory for detailed outputs.".

(** ** The entry point *)

(** [main()] after [parse_args]: the exit code it returns. The analyzer
    is created with an empty [experiments]. *)
Definition main (args : Args) : IO Z :=
  found ← path_exists (results_dir args);
  if negb found then
    _ ← print ("Error: Results directory not found: " +:+ results_dir args);
    mret 1
  else
    _ ← set_experiments [];
    _ ← generate_summary_report (results_dir args);
    mret 0.

(** [exit(main())]: the exit status of the process; an exception that
    leaves [main] ends the interpreter with status 1. *)
Definition exit_status (args : Args) (w : world) : Z :=
  match (main args w).1 with
  | Ok status => status
  | Raise _ => 1
  end.
End Report.

(** * Notions the properties are stated with *)

(** The two classes a pattern of the catalog captures. *)
Definition token_class (k : cclass) : Prop := k = Cdigit \/ k = Cnum.

(** Group 1 of the match of [pattern] that starts at offset [i] of the
    text, if there is one. *)
Definition match_at (pattern : regex) (content : string) (i : nat)
    : option string :=
  string_of_list_ascii
  <$> re_match_at pattern (drop i (list_ascii_of_string content)).

(** The names of the metrics of the catalog. *)
Definition catalog_keys : list string := patterns.*1.

(** The counters: the metrics whose pattern captures digits only. *)
Definition digit_metrics : list string :=
  [ "sim_insts"; "committedInsts"; "numCycles"; "branch_lookups";
    "branch_condPredicted"; "branch_condIncorrect";
    "icache_overall_hits"; "icache_overall_misses";
    "dcache_overall_hits"; "dcache_overall_misses";
    "l2cache_overall_hits"; "l2cache_overall_misses";
    "rob_reads"; "rob_writes"; "iq_reads"; "iq_writes" ].

(** Whether a pattern is of the shape [key\s+(\d+)]. *)
Definition is_digit_pattern (r : regex) : bool :=
  match r with
  | Seq (Lit _) (Seq (Plus Cspace) (Group (Plus Cdigit))) => true
  | _ => false
  end.

(** The names the derived step writes. *)
Definition derived_keys : list string :=
  ["branch_accuracy"; "icache_hit_rate"; "dcache_hit_rate"; "l2cache_hit_rate"].

Ltac unfold_steps :=
  unfold branch_accuracy_step, hit_rate_step, py_gt_zero, py_add,
    py_truediv, py_one_minus, float_truediv, float_of_int, mbind,
    result_bind in *.

(** The accuracy a report with both branch counters gets. *)
Definition accuracy_value (predicted incorrect : Z) : spec_float :=
  if 0 <? predicted
  then SFsub prec emax f_one (int_quotient incorrect predicted)
  else f_zero.

(** The hit rate a report with both counters of a cache gets. *)
Definition rate_value (hits misses : Z) : spec_float :=
  if 0 <? hits + misses then int_quotient hits (hits + misses) else f_zero.

(** Every counter a report holds is a non-negative [int]. *)
Definition counters_int (m : gmap string PyVal) : Prop :=
  forall metric v, metric ∈ digit_metrics -> m !! metric = Some v ->
    exists z, v = PyInt z /\ 0 <= z.





Ltac in_patterns :=
  unfold patterns;
  repeat first [ apply list_elem_of_here | apply list_elem_of_further ].


(** A text given by its lines. *)
Definition nl_text (lines : list string) : string :=
  String.concat nl lines.


Ltac in_list :=
  match goal with
  | |- ?k ∈ ?l => apply (bool_decide_unpack (k ∈ l)); vm_compute; exact I
  end.

(** The rational number a finite double stands for. *)
Definition float_value (f : spec_float) : Q :=
  match f with
  | S754_finite s m e =>
      ((if s then -1 else 1) * inject_Z (Z.pos m) * Qpower 2 e)%Q
  | _ => 0%Q
  end.

(** The doubles nearest to 0.87 and to 0.8, the values of the literals. *)
Definition double_0_87 : spec_float :=
  S754_finite false 7836263351624663 (-53).

Definition double_0_8 : spec_float :=
  S754_finite false 7205759403792794 (-53).


(** The report of a text for which [parse_stats_text] returns one. *)
Definition report_of (content : string) : gmap string PyVal :=
  match parse_stats_text content with
  | Ok m => m
  | Raise _ => ∅
  end.

(** A report with 80 hits and 20 misses of the instruction cache. *)
Definition cache_sample : string :=
  nl_text [ "system.cpu.icache.overall_hits::total     80";
            "system.cpu.icache.overall_misses::total   20" ].

(** The state in which the report starts: the directory has been looked
    up and the analyzer is new. *)
Definition report_start (args : Args) (w : world) : world :=
  World [] (fs w) (stdout w) (trace w ++ [EvExists (results_dir args)]).

(** A rendering that prints every table, figure and number as the empty
    text; it is enough to run the control flow of the script. *)
Definition blank_rendering : Rendering :=
  {| df_to_string := fun _ => EmptyString;
     df_to_csv := fun _ => EmptyString;
     ipc_figure := fun _ => EmptyString;
     format_4f := fun _ => EmptyString;
     py_str := fun _ => EmptyString;
     str_upper := fun s => s |}.

(** The command line [analyze_results.py dir]. *)
Definition console_args (dir : string) : Args :=
  {| results_dir := dir; output_format := "console" |}.

(** A results directory with one experiment and one workload. *)
Definition small_results : world :=
  World []
    (list_to_map
       [ ("results", Dir ["basic_pipeline"]);
         ("results/basic_pipeline", Dir ["hello"]);
         ("results/basic_pipeline/hello", Dir ["stats.txt"]);
         ("results/basic_pipeline/hello/stats.txt",
            File "system.cpu.ipc 0.75") ])
    [] [].

(** The results directory exists, and in it [basic_pipeline] is a regular
    file. *)
Definition file_for_experiment : world :=
  World []
    (list_to_map
       [ ("results", Dir ["basic_pipeline"]);
         ("results/basic_pipeline", File EmptyString) ])
    [] [].

(** The (experiment, workload, data) triples in the order the two loops
    visit them. *)
Definition triples (exps : list (string * list (string * workload_data)))
    : list (string * string * workload_data) :=
  exp ← exps; (fun wl : string * workload_data => (exp.1, wl.1, wl.2)) <$> exp.2.

(** The numeric columns of a row. *)
Definition row_keys : list string :=
  [ "ipc"; "sim_seconds"; "committedInsts"; "branch_accuracy";
    "dcache_hit_rate"; "l2cache_hit_rate" ].

(** The field of a row by the name of its column. *)
Definition row_field (r : row) (key : string) : option PyVal :=
  if String.eqb key "ipc" then Some (ipc r)
  else if String.eqb key "sim_seconds" then Some (sim_seconds r)
  else if String.eqb key "committedInsts" then Some (committedInsts r)
  else if String.eqb key "branch_accuracy" then Some (branch_accuracy r)
  else if String.eqb key "dcache_hit_rate" then Some (dcache_hit_rate r)
  else if String.eqb key "l2cache_hit_rate" then Some (l2cache_hit_rate r)
  else None.

(** A computation that leaves [self.experiments] as it was. *)
Definition keeps_experiments {A : Type} (c : IO A) : Prop :=
  forall w, experiments (c w).2 = experiments w.


(** The values that carry the label, in the order of the rows. *)
Definition values_of (label : string) (labelled : list (string * spec_float))
    : list spec_float :=
  (filter (fun lx : string * spec_float => lx.1 = label) labelled).*2.

(** A running sum and count after the values [xs]. *)
Definition add_values (sn : spec_float * nat) (xs : list spec_float)
    : spec_float * nat :=
  foldl (fun a x => (SFadd prec emax a.1 x, S a.2)) sn xs.

(** The doubles 1.0, 2.0 and 3.0. *)
Definition double_1 : spec_float := S754_finite false 4503599627370496 (-52).
Definition double_2 : spec_float := S754_finite false 4503599627370496 (-51).
Definition double_3 : spec_float := S754_finite false 6755399441055744 (-51).

(** A row with the given [ipc], and four rows of two experiments. *)
Definition ipc_row (exp_name workload_name : string) (x : spec_float) : row :=
  {| experiment := exp_name; workload := workload_name; ipc := PyFloat x;
     sim_seconds := PyInt 0; committedInsts := PyInt 0;
     branch_accuracy := PyInt 0; dcache_hit_rate := PyInt 0;
     l2cache_hit_rate := PyInt 0 |}.

Definition ipc_rows : list row :=
  [ ipc_row "superscalar" "matrix" double_1;
    ipc_row "basic_pipeline" "matrix" double_3;
    ipc_row "superscalar" "sort" double_2;
    ipc_row "superscalar" "hello" double_3 ].

(** ** Notions of the further properties *)

(** A data cache that never missed. *)
Definition all_hits_sample : string :=
  nl_text [ "system.cpu.dcache.overall_hits::total     7";
            "system.cpu.dcache.overall_misses::total   0" ].

(** A predictor that was wrong every time. *)
Definition all_wrong_sample : string :=
  nl_text [ "system.cpu.branchPred.condPredicted       40";
            "system.cpu.branchPred.condIncorrect       40" ].

(** The path an access to the file system is about. *)
Definition ev_path (ev : fs_event) : string :=
  match ev with
  | EvExists p | EvIsDir p | EvIterdir p | EvOpenRead p | EvOpenWrite p => p
  end.

(** [p] is the directory [base] or a path below it. *)
Definition under (base p : string) : Prop :=
  p = base \/ exists rest, p = base +:+ "/" +:+ rest.

(** A computation every run of which relates the state it starts in to
    the state it ends in, whether it returns or raises. *)
Definition respects {A : Type} (R : relation world) (c : IO A) : Prop :=
  forall w, R w (c w).2.

(** The file system is as it was. *)
Definition same_fs : relation world := fun w w' => fs w' = fs w.

(** [self.experiments] is as it was. *)
Definition same_experiments : relation world :=
  fun w w' => experiments w' = experiments w.

(** The file system is as it was, the paths [ps] apart. *)
Definition same_fs_but (ps : list string) : relation world :=
  fun w w' => forall p, p ∉ ps -> fs w' !! p = fs w !! p.

(** Every access since the first state is at or below [base]. *)
Definition touches_under (base : string) : relation world :=
  fun w w' =>
    exists evs, trace w' = trace w ++ evs
                /\ Forall (fun ev => under base (ev_path ev)) evs.

(** The two files the report writes. *)
Definition output_files (base : string) : list string :=
  [ path_join base "performance_comparison.csv";
    path_join base "ipc_comparison.png" ].

(** The path holds a directory. *)
Definition has_dir (files : gmap string fs_node) (p : string) : bool :=
  match files !! p with
  | Some (Dir _) => true
  | _ => false
  end.

(** The lines of the report of a results directory without experiments. *)
Definition empty_report : list string :=
  [ nl +:+ rule;
    "           GEM5 ILP EXPERIMENT SUMMARY REPORT";
    rule;
    nl +:+ "=== Performance Comparison Analysis ===";
    "No experiment data found!";
    "Branch prediction experiment data not found";
    "Superscalar experiment data not found";
    nl +:+ "=== Key Insights ===";
    nl +:+ rule;
    "Analysis complete! Check the results directory for detailed outputs." ].

(** A results directory that is empty. *)
Definition empty_results : world :=
  World [] {[ "results" := Dir [] ]} [] [].

(** What the loading stores for a workload directory: the report of its
    [stats.txt], empty when there is none, and the path of its
    [config.ini] when there is one. *)
Definition workload_entry (files : gmap string fs_node)
    (exp_path name : string) : workload_data :=
  let workload_dir := path_join exp_path name in
  WorkloadData
    (match files !! path_join workload_dir "stats.txt" with
     | Some (File content) => report_of content
     | _ => ∅
     end)
    (if bool_decide (is_Some (files !! path_join workload_dir "config.ini"))
     then Some (path_join workload_dir "config.ini") else None).

(** An experiment directory with a workload, a workload without
    statistics and a stray file. *)
Definition mixed_results : world :=
  World []
    (list_to_map
       [ ("results/superscalar", Dir ["matrix"; "notes.txt"; "sort"]);
         ("results/superscalar/matrix", Dir ["stats.txt"; "config.ini"]);
         ("results/superscalar/matrix/stats.txt", File "system.cpu.ipc 2");
         ("results/superscalar/matrix/config.ini", File EmptyString);
         ("results/superscalar/notes.txt", File "system.cpu.ipc 3");
         ("results/superscalar/sort", Dir []) ])
    [] [].

(** The value can be printed with the format [.4f]. *)
Definition has_4f (v : PyVal) : bool :=
  match v with
  | PyFloat _ => true
  | PyInt z => match float_of_int z with Ok _ => true | Raise _ => false end
  | PyStr _ => false
  end.

(** The metrics a text analysis prints with [.4f], and the workloads all
    of which can be printed so. *)
Definition branch_keys : list string := ["ipc"; "branch_accuracy"].

Definition scaling_keys : list string :=
  ["ipc"; "fetch_rate"; "decode_rate"; "commit_rate"].

Definition printable (keys : list string) (wl : string * workload_data)
    : bool :=
  forallb (fun key => has_4f (stats_get (stats wl.2) key)) keys.

(** The analyzer after loading a branch prediction run whose statistics
    give the IPC as [1.2.3]. *)
Definition raw_ipc_loaded : world :=
  World [ ("branch_prediction",
           [ ("hello",
              WorkloadData (report_of "system.cpu.ipc 1.2.3") None) ]) ]
        ∅ [] [].

(** The analyzer after loading a superscalar run without fetch rate. *)
Definition scaling_loaded : world :=
  World [ ("superscalar",
           [ ("hello",
              WorkloadData (report_of "system.cpu.ipc 1.5") None) ]) ]
        ∅ [] [].

(** The paths of the CSV table and of the figure. *)
Definition csv_path (base : string) : string :=
  path_join base "performance_comparison.csv".

Definition plot_path (base : string) : string :=
  path_join base "ipc_comparison.png".

(** A rendering that tells the table from the figure. *)
Definition tagged_rendering : Rendering :=
  {| df_to_string := fun _ => "table";
     df_to_csv := fun _ => "csv";
     ipc_figure := fun _ => "png";
     format_4f := fun _ => "0.0000";
     py_str := fun _ => "0";
     str_upper := fun s => s |}.




(** * Properties *)

(** ** Rounding to binary64 never overflows below the exponent bound *)















(** ** Strings and lists of characters *)


Lemma string_of_list_ascii_inj (a b : list ascii) :
  string_of_list_ascii a = string_of_list_ascii b -> a = b.
Proof.
  intros E. apply (f_equal list_ascii_of_string) in E.
  by rewrite !list_ascii_of_string_of_list_ascii in E.
Qed.

(** ** Character classes *)

Lemma space_not_digit c : is_space c = true -> is_digit c = false.
Proof. destruct c as [[] [] [] [] [] [] [] []]; vm_compute; congruence. Qed.

Lemma space_not_numchar c : is_space c = true -> is_numchar c = false.
Proof. destruct c as [[] [] [] [] [] [] [] []]; vm_compute; congruence. Qed.

Lemma digit_is_numchar c : is_digit c = true -> is_numchar c = true.
Proof. unfold is_numchar. by intros ->. Qed.

Lemma space_not_token k c :
  token_class k -> in_class Cspace c = true -> in_class k c = false.
Proof.
  intros [-> | ->]; simpl; auto using space_not_digit, space_not_numchar.
Qed.

#[local] Arguments in_class : simpl never.

(** ** Runs *)

Lemma span_class_app k s run r :
  span_class k s = (run, r) -> s = run ++ r.
Proof.
  revert run r. induction s as [|c s IH]; simpl; intros run r E.
  - by inversion E.
  - destruct (in_class k c).
    + destruct (span_class k s) as [run' r'] eqn:E'. inversion E; subst.
      simpl. f_equal. by apply IH.
    + by inversion E.
Qed.

Lemma span_class_all k s run r :
  span_class k s = (run, r) -> forallb (in_class k) run = true.
Proof.
  revert run r. induction s as [|c s IH]; simpl; intros run r E.
  - by inversion E.
  - destruct (in_class k c) eqn:Ec.
    + destruct (span_class k s) as [run' r'] eqn:E'. inversion E; subst.
      simpl. rewrite Ec. simpl. by eapply IH.
    + by inversion E.
Qed.


(** A run followed by something that does not continue it is found
    again by [span_class]. *)
Lemma span_class_intro k run r :
  forallb (in_class k) run = true ->
  match r with [] => True | c :: _ => in_class k c = false end ->
  span_class k (run ++ r) = (run, r).
Proof.
  intros Hrun Hr. induction run as [|c run IH]; simpl in *.
  - destruct r as [|c r]; [reflexivity|]. simpl. by rewrite Hr.
  - apply andb_prop in Hrun as [Hc Hrun]. rewrite Hc. by rewrite IH.
Qed.

Lemma span_class_taken k s run r :
  span_class k s = (run, r) -> take (length s - length r) s = run.
Proof.
  intros E. pose proof (span_class_app _ _ _ _ E) as ->.
  rewrite length_app.
  replace (length run + length r - length r)%nat with (length run) by lia.
  by rewrite take_app_length.
Qed.

(** ** The backtracking matcher on a pattern of the catalog *)

(** When the continuation accepts whatever follows, the repetition takes
    its longest run. *)
Lemma plus_bt_total {A : Type} k s (kont : list ascii -> option A) :
  (forall r, is_Some (kont r)) ->
  plus_bt k s kont
  = match span_class k s with
    | ([], _) => None
    | (_ :: _, r) => kont r
    end.
Proof.
  intros Hk. induction s as [|c s IH]; simpl; [reflexivity|].
  destruct (in_class k c); [|reflexivity].
  rewrite IH. destruct (span_class k s) as [[|d run] r] eqn:E.
  - by rewrite (span_class_app _ _ _ _ E).
  - destruct (Hk r) as [v ->]. reflexivity.
Qed.

(** When the continuation cannot start on a character of the class, giving
    characters back never helps: again the longest run, or nothing. *)
Lemma plus_bt_forced {A : Type} k s (kont : list ascii -> option A) :
  (forall c r, in_class k c = true -> kont (c :: r) = None) ->
  plus_bt k s kont
  = match span_class k s with
    | ([], _) => None
    | (_ :: _, r) => kont r
    end.
Proof.
  intros Hk. induction s as [|c s IH]; simpl; [reflexivity|].
  destruct (in_class k c) eqn:Ec; [|reflexivity].
  rewrite IH. destruct (span_class k s) as [[|d run] r] eqn:E.
  - by rewrite (span_class_app _ _ _ _ E).
  - destruct (kont r) eqn:Er; [reflexivity|].
    pose proof (span_class_app _ _ _ _ E) as ->.
    pose proof (span_class_all _ _ _ _ E) as Hall. simpl in Hall.
    apply andb_prop in Hall as [Hd _]. simpl. by apply Hk.
Qed.

Lemma plus_bt_head {A : Type} k c r (kont : list ascii -> option A) :
  in_class k c = false -> plus_bt k (c :: r) kont = None.
Proof. simpl. by intros ->. Qed.

(** The matcher and the scanner agree on every pattern of the shape
    [key\s+(k+)] whose class is one of the two token classes. *)
Lemma re_match_at_stat_line key k s :
  token_class k ->
  re_match_at (stat_line key k) s
  = scan_stat_line (list_ascii_of_string key) k s.
Proof.
  intros Hk. unfold re_match_at, stat_line, scan_stat_line. simpl.
  destruct (strip_prefix _ s) as [s1|]; [|reflexivity].
  rewrite plus_bt_forced.
  - destruct (span_class Cspace s1) as [[|w ws] s2]; [reflexivity|].
    rewrite plus_bt_total by (intros; eexists; reflexivity).
    destruct (span_class k s2) as [[|t tok] r] eqn:E; [reflexivity|].
    by rewrite (span_class_taken _ _ _ _ E).
  - intros c r Hc. apply plus_bt_head. by apply space_not_token.
Qed.

(** ** The leftmost match *)

Lemma re_search_from_drop r s i v :
  re_match_at r (drop i s) = Some v ->
  (forall j, (j < i)%nat -> re_match_at r (drop j s) = None) ->
  re_search_from r s = Some v.
Proof.
  revert s. induction i as [|i IH]; intros s Hi Hbefore.
  - rewrite drop_0 in Hi. destruct s; simpl; by rewrite Hi.
  - pose proof (Hbefore 0%nat ltac:(lia)) as H0. rewrite drop_0 in H0.
    destruct s as [|c s].
    + simpl in Hi. congruence.
    + simpl. rewrite H0. apply IH; [exact Hi|].
      intros j Hj. apply (Hbefore (S j)). lia.
Qed.

Lemma re_search_from_inv r s v :
  re_search_from r s = Some v ->
  exists i, re_match_at r (drop i s) = Some v
            /\ forall j, (j < i)%nat -> re_match_at r (drop j s) = None.
Proof.
  induction s as [|c s IH]; simpl.
  - destruct (re_match_at r []) eqn:E; [|discriminate].
    intros [= ->]. exists 0%nat. split; [exact E | lia].
  - destruct (re_match_at r (c :: s)) eqn:E.
    + intros [= ->]. exists 0%nat. split; [exact E | lia].
    + intros Hs. destruct (IH Hs) as (i & Hi & Hbefore).
      exists (S i). split; [exact Hi|].
      intros [|j] Hj; [exact E|]. apply Hbefore. lia.
Qed.

Lemma re_search_from_none r s :
  re_search_from r s = None ->
  forall j, re_match_at r (drop j s) = None.
Proof.
  induction s as [|c s IH]; simpl.
  - destruct (re_match_at r []) eqn:E; [discriminate|].
    intros _ j. by rewrite drop_nil.
  - destruct (re_match_at r (c :: s)) eqn:E; [discriminate|].
    intros Hs [|j]; [exact E|]. simpl. by apply IH.
Qed.

(** [re.search] returns the match at the least offset that has one. *)
Lemma re_search_first pattern content i token :
  match_at pattern content i = Some token ->
  (forall j, (j < i)%nat -> match_at pattern content j = None) ->
  re_search pattern content = Some token.
Proof.
  unfold match_at, re_search. intros Hi Hbefore.
  destruct (re_match_at pattern (drop i _)) as [v|] eqn:E; [|discriminate].
  simpl in Hi. injection Hi as <-.
  erewrite re_search_from_drop; [reflexivity | exact E |].
  intros j Hj. specialize (Hbefore j Hj).
  by destruct (re_match_at pattern (drop j _)).
Qed.

Lemma re_search_inv pattern content token :
  re_search pattern content = Some token ->
  exists i, match_at pattern content i = Some token
            /\ forall j, (j < i)%nat -> match_at pattern content j = None.
Proof.
  unfold match_at, re_search. intros Hs.
  destruct (re_search_from pattern _) as [v|] eqn:E; [|discriminate].
  simpl in Hs. injection Hs as <-.
  destruct (re_search_from_inv _ _ _ E) as (i & Hi & Hbefore).
  exists i. split; [by rewrite Hi|].
  intros j Hj. by rewrite (Hbefore j Hj).
Qed.

Lemma re_search_none pattern content :
  re_search pattern content = None ->
  forall j, match_at pattern content j = None.
Proof.
  unfold match_at, re_search. intros Hs j.
  destruct (re_search_from pattern _) as [v|] eqn:E; [discriminate|].
  by rewrite (re_search_from_none _ _ E).
Qed.

(** ** The catalog *)

Lemma patterns_NoDup : NoDup catalog_keys.
Proof. apply (bool_decide_unpack (NoDup catalog_keys)). vm_compute. exact I. Qed.

Lemma patterns_shape metric pattern :
  (metric, pattern) ∈ patterns ->
  exists key k, pattern = stat_line key k /\ token_class k.
Proof.
  assert (Forall (fun e : string * regex =>
            exists key k, e.2 = stat_line key k /\ token_class k) patterns)
    as Hall.
  { unfold patterns.
    repeat (apply Forall_cons; split;
            [ eexists _, _; split;
              [ reflexivity | (left; reflexivity) || (right; reflexivity) ]
            | ]).
    apply Forall_nil_2. }
  intros Hin. rewrite Forall_forall in Hall. exact (Hall _ Hin).
Qed.

(** ** The extraction loop *)

Lemma extract_fold_other content l m0 key :
  key ∉ l.*1 ->
  fold_left (extract_step content) l m0 !! key = m0 !! key.
Proof.
  revert m0. induction l as [|[k p] l IH]; intros m0 Hnot; simpl.
  - reflexivity.
  - rewrite fmap_cons in Hnot. apply not_elem_of_cons in Hnot as [Hne Hnot].
    rewrite IH by exact Hnot. unfold extract_step. simpl in *.
    destruct (re_search p content); [|reflexivity].
    by rewrite lookup_insert_ne.
Qed.

Lemma extract_fold_lookup content l m0 metric pattern :
  NoDup l.*1 ->
  (metric, pattern) ∈ l ->
  fold_left (extract_step content) l m0 !! metric
  = match re_search pattern content with
    | Some value => Some (convert_or_raw value)
    | None => m0 !! metric
    end.
Proof.
  revert m0. induction l as [|[k p] l IH]; intros m0 Hnd Hin.
  - by apply elem_of_nil in Hin.
  - rewrite fmap_cons in Hnd. apply NoDup_cons in Hnd as [Hk Hnd].
    apply elem_of_cons in Hin as [[= -> ->] | Hin]; simpl.
    + rewrite extract_fold_other by exact Hk. unfold extract_step. simpl.
      destruct (re_search p content); [|reflexivity].
      by rewrite lookup_insert_eq.
    + rewrite (IH _ Hnd Hin).
      destruct (re_search pattern content); [reflexivity|].
      unfold extract_step. simpl.
      destruct (re_search p content); [|reflexivity].
      rewrite lookup_insert_ne; [reflexivity|].
      intros ->. apply Hk. simpl.
      change metric with ((metric, pattern).1). by apply list_elem_of_fmap_2.
Qed.

(** The loop stores, for each metric of the catalog, the converted token
    of the leftmost match of its pattern, and nothing when there is no
    match. *)
Lemma extract_metrics_lookup content metric pattern :
  (metric, pattern) ∈ patterns ->
  extract_metrics content !! metric
  = convert_or_raw <$> re_search pattern content.
Proof.
  intros Hin. unfold extract_metrics.
  rewrite (extract_fold_lookup _ _ _ _ _ patterns_NoDup Hin).
  by destruct (re_search pattern content).
Qed.

(** The loop stores nothing under a name that is not in the catalog. *)
Lemma extract_metrics_other content key :
  key ∉ catalog_keys -> extract_metrics content !! key = None.
Proof.
  intros Hnot. unfold extract_metrics. by rewrite extract_fold_other.
Qed.

(** ** Division of integers *)




(** ** Conversion of tokens *)

Lemma digit_plain c :
  is_digit c = true ->
  (Ascii.eqb c "."%char || is_exp_marker c) = false
  /\ Ascii.eqb c "-"%char = false /\ Ascii.eqb c "+"%char = false
  /\ 0 <= digit_val c <= 9.
Proof.
  destruct c as [[] [] [] [] [] [] [] []]; vm_compute;
    intuition congruence.
Qed.

Lemma span_digits_class s : span_digits s = span_class Cdigit s.
Proof.
  induction s as [|c s IH]; simpl; [reflexivity|].
  unfold in_class. by rewrite IH.
Qed.

Lemma digits_val_nonneg ds :
  forallb is_digit ds = true -> 0 <= digits_val ds.
Proof.
  unfold digits_val.
  assert (forall acc, 0 <= acc -> forallb is_digit ds = true ->
            0 <= fold_left (fun a c => 10 * a + digit_val c) ds acc) as H.
  { induction ds as [|c ds IH]; simpl; intros acc Hacc Hall; [exact Hacc|].
    apply andb_prop in Hall as [Hc Hall].
    apply IH; [|exact Hall]. pose proof (digit_plain c Hc). lia. }
  apply H. lia.
Qed.

Lemma looks_float_digits ds :
  forallb is_digit ds = true ->
  looks_float (string_of_list_ascii ds) = false.
Proof.
  unfold looks_float. rewrite list_ascii_of_string_of_list_ascii.
  induction ds as [|c ds IH]; simpl; [reflexivity|].
  intros Hall. apply andb_prop in Hall as [Hc Hall].
  destruct (digit_plain c Hc) as (-> & _). by apply IH.
Qed.

(** A non-empty run of digits converts to the integer it spells. *)
Lemma convert_digits ds :
  ds <> [] -> forallb is_digit ds = true ->
  convert (string_of_list_ascii ds) = Ok (PyInt (digits_val ds)).
Proof.
  intros Hne Hall. unfold convert. rewrite looks_float_digits by exact Hall.
  unfold py_int. rewrite list_ascii_of_string_of_list_ascii.
  destruct ds as [|c ds]; [done|]. simpl in Hall.
  pose proof Hall as Hall'. apply andb_prop in Hall' as [Hc _].
  destruct (digit_plain c Hc) as (_ & Hm & Hp & _).
  unfold split_sign. rewrite Hm, Hp.
  rewrite span_digits_class.
  rewrite <- (app_nil_r (c :: ds)) at 1.
  rewrite (span_class_intro Cdigit (c :: ds) []) by done.
  reflexivity.
Qed.



(** ** One position of a catalog pattern *)



Lemma scan_stat_line_token key k s tok :
  scan_stat_line key k s = Some tok ->
  tok <> [] /\ forallb (in_class k) tok = true.
Proof.
  unfold scan_stat_line.
  destruct (strip_prefix key s) as [s1|]; [|discriminate].
  destruct (span_class Cspace s1) as [[|w ws] s2]; [discriminate|].
  destruct (span_class k s2) as [[|t run] r] eqn:E; [discriminate|].
  intros [= <-]. split; [discriminate|]. by eapply span_class_all.
Qed.



(** ** The counters are integers *)

(** The metrics whose pattern captures digits only are the sixteen
    counters. *)
Lemma digit_metrics_patterns :
  digit_metrics = (filter (fun e => is_digit_pattern e.2) patterns).*1.
Proof. reflexivity. Qed.

Lemma digit_metric_pattern metric :
  metric ∈ digit_metrics ->
  exists key, (metric, stat_line key Cdigit) ∈ patterns.
Proof.
  rewrite digit_metrics_patterns. intros Hin.
  apply list_elem_of_fmap in Hin as ([m r] & -> & Hin).
  apply list_elem_of_filter in Hin as [Hd Hin]. simpl in *.
  destruct (patterns_shape _ _ Hin) as (key & k & -> & _).
  exists key. destruct k; simpl in Hd; try done.
Qed.

Lemma re_search_stat_line_token key k content token :
  token_class k ->
  re_search (stat_line key k) content = Some token ->
  list_ascii_of_string token <> []
  /\ forallb (in_class k) (list_ascii_of_string token) = true.
Proof.
  intros Hk Hs. apply re_search_inv in Hs as (i & Hi & _).
  unfold match_at in Hi. rewrite re_match_at_stat_line in Hi by exact Hk.
  destruct (scan_stat_line _ k _) as [tok|] eqn:E; [|discriminate].
  simpl in Hi. injection Hi as <-.
  rewrite list_ascii_of_string_of_list_ascii.
  by eapply scan_stat_line_token.
Qed.

(** Whatever the loop stores for a counter is a non-negative [int]: the
    value of the digits its pattern captured. *)
Lemma extract_counter content metric key v :
  (metric, stat_line key Cdigit) ∈ patterns ->
  extract_metrics content !! metric = Some v ->
  exists token,
    re_search (stat_line key Cdigit) content = Some token
    /\ v = PyInt (digits_val (list_ascii_of_string token))
    /\ 0 <= digits_val (list_ascii_of_string token).
Proof.
  intros Hin. rewrite (extract_metrics_lookup _ _ _ Hin).
  destruct (re_search _ content) as [token|] eqn:E; [|discriminate].
  simpl. intros [= <-]. exists token. split; [reflexivity|].
  destruct (re_search_stat_line_token key Cdigit content token
              ltac:(by left) E) as [Hne Hall].
  unfold convert_or_raw.
  rewrite <- (string_of_list_ascii_of_string token) at 1.
  rewrite convert_digits by assumption.
  split; [reflexivity | by apply digits_val_nonneg].
Qed.

Lemma extract_counter_int content metric v :
  metric ∈ digit_metrics ->
  extract_metrics content !! metric = Some v ->
  exists z, v = PyInt z /\ 0 <= z.
Proof.
  intros Hin Hv. destruct (digit_metric_pattern _ Hin) as [key Hkey].
  destruct (extract_counter _ _ _ _ Hkey Hv) as (token & _ & -> & Hz).
  eauto.
Qed.

(** ** The derived metrics *)

(** Each step writes one key at most. *)
Lemma branch_accuracy_step_frame m m' k :
  branch_accuracy_step m = Ok m' -> k <> "branch_accuracy" ->
  m' !! k = m !! k.
Proof.
  unfold_steps. intros Hs Hk.
  repeat (case_match; simplify_eq/=); by rewrite ?lookup_insert_ne.
Qed.

Lemma hit_rate_step_frame m cache m' k :
  hit_rate_step m cache = Ok m' -> k <> cache +:+ "_hit_rate" ->
  m' !! k = m !! k.
Proof.
  unfold_steps. intros Hs Hk.
  repeat (case_match; simplify_eq/=); by rewrite ?lookup_insert_ne.
Qed.

Lemma branch_accuracy_step_value m m' :
  branch_accuracy_step m = Ok m' ->
  m' !! "branch_accuracy"
  = match m !! "branch_condPredicted", m !! "branch_condIncorrect" with
    | Some (PyInt p), Some (PyInt i) => Some (PyFloat (accuracy_value p i))
    | Some _, Some _ => m' !! "branch_accuracy"
    | _, _ => m !! "branch_accuracy"
    end.
Proof.
  unfold_steps. unfold accuracy_value, int_truediv. intros Hs.
  repeat (case_match; simplify_eq/=); by rewrite ?lookup_insert_eq.
Qed.

Lemma hit_rate_step_value m cache m' :
  hit_rate_step m cache = Ok m' ->
  m' !! (cache +:+ "_hit_rate")
  = match m !! (cache +:+ "_overall_hits"),
          m !! (cache +:+ "_overall_misses") with
    | Some (PyInt h), Some (PyInt ms) => Some (PyFloat (rate_value h ms))
    | Some _, Some _ => m' !! (cache +:+ "_hit_rate")
    | _, _ => m !! (cache +:+ "_hit_rate")
    end.
Proof.
  unfold_steps. unfold rate_value, int_truediv. intros Hs.
  repeat (case_match; simplify_eq/=); by rewrite ?lookup_insert_eq.
Qed.





(** The four steps of [derive_metrics], one after the other. *)
Lemma derive_metrics_steps m m' :
  derive_metrics m = Ok m' <->
  exists b i d,
    branch_accuracy_step m = Ok b /\ hit_rate_step b "icache" = Ok i
    /\ hit_rate_step i "dcache" = Ok d /\ hit_rate_step d "l2cache" = Ok m'.
Proof.
  unfold derive_metrics, caches. cbn [foldM].
  unfold mbind, result_bind, mret, result_ret.
  split.
  - destruct (branch_accuracy_step m) as [b|]; [|done].
    destruct (hit_rate_step b "icache") as [i|] eqn:Ei; [|done].
    destruct (hit_rate_step i "dcache") as [d|] eqn:Ed; [|done].
    destruct (hit_rate_step d "l2cache") as [l|] eqn:El; [|done].
    intros [= <-]. by exists b, i, d.
  - intros (b & i & d & -> & -> & -> & ->). reflexivity.
Qed.

(** The derived step leaves every primary metric as it was. *)
Lemma derive_metrics_frame m m' k :
  derive_metrics m = Ok m' -> k ∉ derived_keys -> m' !! k = m !! k.
Proof.
  intros Hd Hk. apply derive_metrics_steps in Hd as (b & i & d & Hb & Hi & Hd & Hl).
  unfold derived_keys in Hk. rewrite !not_elem_of_cons in Hk.
  destruct Hk as (? & ? & ? & ? & _).
  rewrite (hit_rate_step_frame _ _ _ k Hl) by done.
  rewrite (hit_rate_step_frame _ _ _ k Hd) by done.
  rewrite (hit_rate_step_frame _ _ _ k Hi) by done.
  by rewrite (branch_accuracy_step_frame _ _ k Hb).
Qed.

(** ** [parse_stats_text]: when it returns, and what *)

Lemma extract_counters_int content : counters_int (extract_metrics content).
Proof. intros metric v. apply extract_counter_int. Qed.

Lemma catalog_not_derived k : k ∈ catalog_keys -> k ∉ derived_keys.
Proof.
  assert (Forall (fun k => k ∉ derived_keys) catalog_keys) as Hall.
  { apply (bool_decide_unpack (Forall _ catalog_keys)). vm_compute. exact I. }
  rewrite Forall_forall in Hall. apply Hall.
Qed.

Lemma derived_not_catalog k : k ∈ derived_keys -> k ∉ catalog_keys.
Proof. intros Hd Hc. by apply (catalog_not_derived k). Qed.

Lemma digit_metrics_catalog k : k ∈ digit_metrics -> k ∈ catalog_keys.
Proof.
  assert (Forall (fun k => k ∈ catalog_keys) digit_metrics) as Hall.
  { apply (bool_decide_unpack (Forall _ digit_metrics)). vm_compute. exact I. }
  rewrite Forall_forall in Hall. apply Hall.
Qed.


Lemma cache_counters cache :
  cache ∈ caches ->
  cache +:+ "_overall_hits" ∈ digit_metrics
  /\ cache +:+ "_overall_misses" ∈ digit_metrics
  /\ cache +:+ "_hit_rate" ∈ derived_keys.
Proof.
  unfold caches. rewrite !elem_of_cons, elem_of_nil.
  intros [-> | [-> | [-> | []]]]; simpl;
    (split; [|split]);
    match goal with
    | |- ?k ∈ ?l => apply (bool_decide_unpack (k ∈ l)); vm_compute; exact I
    end.
Qed.



Lemma branch_counters_digit :
  "branch_condPredicted" ∈ digit_metrics
  /\ "branch_condIncorrect" ∈ digit_metrics.
Proof.
  split;
    match goal with
    | |- ?k ∈ ?l => apply (bool_decide_unpack (k ∈ l)); vm_compute; exact I
    end.
Qed.





(** A returned report holds the primary metrics as the loop stored
    them. *)
Lemma parse_stats_text_primary content m k :
  parse_stats_text content = Ok m -> k ∉ derived_keys ->
  m !! k = extract_metrics content !! k.
Proof.
  unfold parse_stats_text. intros Hp Hk.
  exact (derive_metrics_frame (extract_metrics content) m k Hp Hk).
Qed.

Lemma parse_stats_text_metric content m metric pattern :
  parse_stats_text content = Ok m -> (metric, pattern) ∈ patterns ->
  m !! metric = convert_or_raw <$> re_search pattern content.
Proof.
  intros Hp Hin. rewrite (parse_stats_text_primary _ _ _ Hp).
  - by apply extract_metrics_lookup.
  - apply catalog_not_derived. unfold catalog_keys.
    apply list_elem_of_fmap. by exists (metric, pattern).
Qed.

(** ** Texts as strings *)







(** ** What the report holds for a stat line *)









(** C9. For every metric of the catalog and every text in which its
    pattern matches at more than one offset, the value stored is the one
    converted from the leftmost match; the stored value is the same for
    any other text that has the same matches up to that offset, whatever
    comes later. *)
Theorem leftmost_match_stored metric pattern content i1 token1 i2 token2 :
  (metric, pattern) ∈ patterns ->
  match_at pattern content i1 = Some token1 ->
  (forall j, (j < i1)%nat -> match_at pattern content j = None) ->
  (i1 < i2)%nat ->
  match_at pattern content i2 = Some token2 ->
  extract_metrics content !! metric = Some (convert_or_raw token1)
  /\ (forall m, parse_stats_text content = Ok m ->
        m !! metric = Some (convert_or_raw token1))
  /\ (forall content',
        (forall j, (j <= i1)%nat ->
           match_at pattern content' j = match_at pattern content j) ->
        extract_metrics content' !! metric = extract_metrics content !! metric).
Proof.
  intros Hin H1 Hfirst _ _.
  pose proof (re_search_first _ _ _ _ H1 Hfirst) as Hs.
  split; [by rewrite (extract_metrics_lookup _ _ _ Hin), Hs|].
  split.
  - intros m Hp. by rewrite (parse_stats_text_metric _ _ _ _ Hp Hin), Hs.
  - intros content' Hsame.
    rewrite !(extract_metrics_lookup _ _ _ Hin), Hs.
    erewrite (re_search_first pattern content' i1 token1); [reflexivity | |].
    + by rewrite Hsame.
    + intros j Hj. rewrite Hsame by lia. by apply Hfirst.
Qed.

Lemma leftmost_match_stored_witness :
  extract_metrics (nl_text ["system.cpu.ipc 1.5"; "system.cpu.ipc 2.5"]) !! "ipc"
  = Some (convert_or_raw "1.5").
Proof.
  pose proof (leftmost_match_stored "ipc" (stat_line "system.cpu.ipc" Cnum)
                (nl_text ["system.cpu.ipc 1.5"; "system.cpu.ipc 2.5"])
                0 "1.5" 19 "2.5") as H.
  destruct H as (Hv & _).
  - in_patterns.
  - vm_compute. reflexivity.
  - intros j Hj. lia.
  - lia.
  - vm_compute. reflexivity.
  - exact Hv.
Defined.






(** ** The derived metrics of a returned report *)

Lemma digit_not_derived k : k ∈ digit_metrics -> k ∉ derived_keys.
Proof. intros Hin. apply catalog_not_derived, digit_metrics_catalog, Hin. Qed.

(** The accuracy is written once, from the two counters. *)
Lemma derive_accuracy m0 m :
  counters_int m0 -> m0 !! "branch_accuracy" = None ->
  derive_metrics m0 = Ok m ->
  m !! "branch_accuracy"
  = match m0 !! "branch_condPredicted", m0 !! "branch_condIncorrect" with
    | Some (PyInt p), Some (PyInt i) => Some (PyFloat (accuracy_value p i))
    | _, _ => None
    end.
Proof.
  intros Hint H0 Hp. destruct branch_counters_digit as [Hdp Hdi].
  apply derive_metrics_steps in Hp as (b & i & d & Hb & Hi & Hd & Hl).
  rewrite (hit_rate_step_frame d "l2cache" m "branch_accuracy" Hl) by done.
  rewrite (hit_rate_step_frame i "dcache" d "branch_accuracy" Hd) by done.
  rewrite (hit_rate_step_frame b "icache" i "branch_accuracy" Hi) by done.
  rewrite (branch_accuracy_step_value _ b Hb), H0.
  destruct (m0 !! "branch_condPredicted") as [p|] eqn:Ep; [|reflexivity].
  destruct (Hint _ _ Hdp Ep) as (zp & -> & _).
  destruct (m0 !! "branch_condIncorrect") as [c|] eqn:Ei; [|reflexivity].
  by destruct (Hint _ _ Hdi Ei) as (zi & -> & _).
Qed.

(** Each hit rate is written once, from the two counters of its cache. *)
Lemma derive_hit_rate cache m0 m :
  cache ∈ caches ->
  counters_int m0 -> m0 !! (cache +:+ "_hit_rate") = None ->
  derive_metrics m0 = Ok m ->
  m !! (cache +:+ "_hit_rate")
  = match m0 !! (cache +:+ "_overall_hits"),
          m0 !! (cache +:+ "_overall_misses") with
    | Some (PyInt h), Some (PyInt ms) => Some (PyFloat (rate_value h ms))
    | _, _ => None
    end.
Proof.
  intros Hc Hint Hr0 Hp. destruct (cache_counters cache Hc) as (Hdh & Hdm & Hdr).
  apply derive_metrics_steps in Hp as (b & i & d & Hb & Hi & Hd & Hl).
  assert (forall k, k ∈ digit_metrics ->
            b !! k = m0 !! k /\ i !! k = m0 !! k /\ d !! k = m0 !! k) as Hk.
  { intros k Hin. pose proof (digit_not_derived _ Hin) as Hnd.
    unfold derived_keys in Hnd. rewrite !not_elem_of_cons in Hnd.
    destruct Hnd as (? & ? & ? & ? & _).
    rewrite (hit_rate_step_frame i "dcache" d k Hd) by done.
    rewrite (hit_rate_step_frame b "icache" i k Hi) by done.
    by rewrite (branch_accuracy_step_frame _ b k Hb). }
  destruct (Hk _ Hdh) as (Hbh & Hih & Hdh').
  destruct (Hk _ Hdm) as (Hbm & Him & Hdm').
  assert (forall v w : PyVal,
            m0 !! (cache +:+ "_overall_hits") = Some v ->
            m0 !! (cache +:+ "_overall_misses") = Some w ->
            exists h ms, v = PyInt h /\ w = PyInt ms) as Hty.
  { intros v w Hv Hw.
    destruct (Hint _ v Hdh Hv) as (h & -> & _).
    destruct (Hint _ w Hdm Hw) as (ms & -> & _). eauto. }
  unfold caches in Hc. rewrite !elem_of_cons, elem_of_nil in Hc.
  destruct Hc as [-> | [-> | [-> | []]]].
  - rewrite (hit_rate_step_frame d "l2cache" m _ Hl) by done.
    rewrite (hit_rate_step_frame i "dcache" d _ Hd) by done.
    rewrite (hit_rate_step_value b "icache" i Hi), Hbh, Hbm.
    rewrite (branch_accuracy_step_frame _ b _ Hb) by done. rewrite Hr0.
    destruct (m0 !! ("icache" +:+ "_overall_hits")) as [v|] eqn:Ev; [|reflexivity].
    destruct (m0 !! ("icache" +:+ "_overall_misses"))
      as [w|] eqn:Ew; [|by destruct v].
    by destruct (Hty v w eq_refl eq_refl) as (h & ms & -> & ->).
  - rewrite (hit_rate_step_frame d "l2cache" m _ Hl) by done.
    rewrite (hit_rate_step_value i "dcache" d Hd), Hih, Him.
    rewrite (hit_rate_step_frame b "icache" i _ Hi) by done.
    rewrite (branch_accuracy_step_frame _ b _ Hb) by done. rewrite Hr0.
    destruct (m0 !! ("dcache" +:+ "_overall_hits")) as [v|] eqn:Ev; [|reflexivity].
    destruct (m0 !! ("dcache" +:+ "_overall_misses"))
      as [w|] eqn:Ew; [|by destruct v].
    by destruct (Hty v w eq_refl eq_refl) as (h & ms & -> & ->).
  - rewrite (hit_rate_step_value d "l2cache" m Hl), Hdh', Hdm'.
    rewrite (hit_rate_step_frame i "dcache" d _ Hd) by done.
    rewrite (hit_rate_step_frame b "icache" i _ Hi) by done.
    rewrite (branch_accuracy_step_frame _ b _ Hb) by done. rewrite Hr0.
    destruct (m0 !! ("l2cache" +:+ "_overall_hits")) as [v|] eqn:Ev; [|reflexivity].
    destruct (m0 !! ("l2cache" +:+ "_overall_misses"))
      as [w|] eqn:Ew; [|by destruct v].
    by destruct (Hty v w eq_refl eq_refl) as (h & ms & -> & ->).
Qed.

Lemma parse_stats_text_eq content :
  parse_stats_text content = derive_metrics (extract_metrics content).
Proof. reflexivity. Qed.

Lemma derived_keys_absent content k :
  k ∈ derived_keys -> extract_metrics content !! k = None.
Proof.
  intros Hk. apply extract_metrics_other. exact (derived_not_catalog k Hk).
Qed.

Lemma report_counter content m metric :
  parse_stats_text content = Ok m -> metric ∈ digit_metrics ->
  m !! metric = extract_metrics content !! metric.
Proof.
  intros Hp Hin.
  exact (parse_stats_text_primary content m metric Hp (digit_not_derived _ Hin)).
Qed.

Lemma report_counter_int content m metric v :
  parse_stats_text content = Ok m ->
  metric ∈ digit_metrics -> m !! metric = Some v ->
  exists z, v = PyInt z /\ 0 <= z.
Proof.
  intros Hp Hin Hv. rewrite (report_counter content m metric Hp Hin) in Hv.
  exact (extract_counter_int content metric v Hin Hv).
Qed.

Lemma report_accuracy content m :
  parse_stats_text content = Ok m ->
  m !! "branch_accuracy"
  = match m !! "branch_condPredicted", m !! "branch_condIncorrect" with
    | Some (PyInt p), Some (PyInt i) => Some (PyFloat (accuracy_value p i))
    | _, _ => None
    end.
Proof.
  intros Hp. destruct branch_counters_digit as [Hdp Hdi].
  rewrite (report_counter content m "branch_condPredicted" Hp Hdp).
  rewrite (report_counter content m "branch_condIncorrect" Hp Hdi).
  rewrite parse_stats_text_eq in Hp.
  exact (derive_accuracy (extract_metrics content) m
           (extract_counters_int content)
           (derived_keys_absent content "branch_accuracy" ltac:(in_list)) Hp).
Qed.

Lemma report_hit_rate cache content m :
  cache ∈ caches ->
  parse_stats_text content = Ok m ->
  m !! (cache +:+ "_hit_rate")
  = match m !! (cache +:+ "_overall_hits"),
          m !! (cache +:+ "_overall_misses") with
    | Some (PyInt h), Some (PyInt ms) => Some (PyFloat (rate_value h ms))
    | _, _ => None
    end.
Proof.
  intros Hc Hp. destruct (cache_counters cache Hc) as (Hdh & Hdm & Hdr).
  rewrite (report_counter content m (cache +:+ "_overall_hits") Hp Hdh).
  rewrite (report_counter content m (cache +:+ "_overall_misses") Hp Hdm).
  rewrite parse_stats_text_eq in Hp.
  exact (derive_hit_rate cache (extract_metrics content) m Hc
           (extract_counters_int content)
           (derived_keys_absent content _ Hdr) Hp).
Qed.

(** ** The value of a double *)

Lemma double_0_87_literal : py_float "0.87" = Ok double_0_87.
Proof. vm_compute. reflexivity. Qed.

Lemma double_0_8_literal : py_float "0.8" = Ok double_0_8.
Proof. vm_compute. reflexivity. Qed.


Lemma double_0_8_close :
  (Qabs (float_value double_0_8 - (8 # 10)) <= 1 # 10000000000000000)%Q.
Proof. vm_compute. discriminate. Qed.


Lemma rate_80_20 : rate_value 80 20 = double_0_8.
Proof. vm_compute. reflexivity. Qed.




(** C3, as the code has it. For each cache and every report that is
    returned: when both counters of the cache are there they are
    non-negative integers and the hit rate is [hits / (hits + misses)]
    for a positive sum and [0.0] otherwise; 80 hits and 20 misses give
    the double 0.8; when one of the counters is missing, or both, there
    is no hit rate for the cache. *)
Theorem hit_rate_reported cache content m :
  cache ∈ caches ->
  parse_stats_text content = Ok m ->
  match m !! (cache +:+ "_overall_hits"),
        m !! (cache +:+ "_overall_misses") with
  | Some hits, Some misses =>
      exists h ms,
        hits = PyInt h /\ misses = PyInt ms /\ 0 <= h /\ 0 <= ms
        /\ m !! (cache +:+ "_hit_rate")
           = Some (PyFloat (if 0 <? h + ms
                            then int_quotient h (h + ms)
                            else f_zero))
        /\ (h = 80 -> ms = 20 ->
            m !! (cache +:+ "_hit_rate") = Some (PyFloat double_0_8)
            /\ (Qabs (float_value double_0_8 - (8 # 10))
                <= 1 # 10000000000000000)%Q)
  | _, _ => m !! (cache +:+ "_hit_rate") = None
  end.
Proof.
  intros Hc Hp. rewrite (report_hit_rate cache content m Hc Hp).
  destruct (cache_counters cache Hc) as (Hdh & Hdm & _).
  destruct (m !! (cache +:+ "_overall_hits")) as [hits|] eqn:Eh;
    [|reflexivity].
  destruct (m !! (cache +:+ "_overall_misses")) as [misses|] eqn:Em;
    [|by destruct hits].
  destruct (report_counter_int content m _ _ Hp Hdh Eh) as (h & -> & Hh0).
  destruct (report_counter_int content m _ _ Hp Hdm Em) as (ms & -> & Hm0).
  exists h, ms. repeat split; try assumption.
  - subst. by rewrite rate_80_20.
  - apply double_0_8_close.
Qed.

Lemma hit_rate_reported_witness :
  parse_stats_text cache_sample = Ok (report_of cache_sample)
  /\ report_of cache_sample !! "icache_hit_rate" = Some (PyFloat double_0_8).
Proof.
  assert (parse_stats_text cache_sample = Ok (report_of cache_sample)) as Hp
    by (vm_compute; reflexivity).
  split; [exact Hp|].
  pose proof (hit_rate_reported "icache" cache_sample _
                ltac:(unfold caches; apply list_elem_of_here) Hp) as H.
  change ("icache" +:+ "_overall_hits") with "icache_overall_hits" in H.
  change ("icache" +:+ "_overall_misses") with "icache_overall_misses" in H.
  change ("icache" +:+ "_hit_rate") with "icache_hit_rate" in H.
  assert (report_of cache_sample !! "icache_overall_hits" = Some (PyInt 80))
    as E1 by (vm_compute; reflexivity).
  assert (report_of cache_sample !! "icache_overall_misses" = Some (PyInt 20))
    as E2 by (vm_compute; reflexivity).
  rewrite E1, E2 in H.
  destruct H as (h & ms & [= <-] & [= <-] & _ & _ & _ & H80).
  exact (proj1 (H80 eq_refl eq_refl)).
Defined.

(** C3 as it is written fails: with the hits of a cache and no misses
    line the report has no hit rate for it, not a hit rate of 0. *)
Lemma no_hit_rate_without_misses :
  exists m,
    parse_stats_text "system.cpu.icache.overall_hits::total 80" = Ok m
    /\ m !! "icache_overall_hits" = Some (PyInt 80)
    /\ m !! "icache_overall_misses" = None
    /\ m !! "icache_hit_rate" = None.
Proof. eexists. repeat split; vm_compute; reflexivity. Qed.

(** ** A missing stats file *)

(** C4. For every path that does not exist, [parse_stats_file] prints the
    warning that names the path and returns the empty report; it raises
    nothing, opens no file and leaves the rest of the state as it was. *)
Theorem missing_stats_file stats_path w :
  fs w !! stats_path = None ->
  parse_stats_file stats_path w
  = (Ok ∅,
     World (experiments w) (fs w)
           (stdout w ++ ["Warning: Stats file not found: " +:+ stats_path])
           (trace w ++ [EvExists stats_path])).
Proof.
  intros Hnone. unfold parse_stats_file, path_exists, log, lookup_node, print.
  unfold mbind, IO_bind, mret, IO_ret. simpl. rewrite Hnone. reflexivity.
Qed.

Lemma missing_stats_file_witness :
  parse_stats_file "results/basic_pipeline/w2/stats.txt" (World [] ∅ [] [])
  = (Ok ∅,
     World [] ∅
       ["Warning: Stats file not found: results/basic_pipeline/w2/stats.txt"]
       [EvExists "results/basic_pipeline/w2/stats.txt"]).
Proof.
  apply (missing_stats_file "results/basic_pipeline/w2/stats.txt"
           (World [] ∅ [] [])).
  reflexivity.
Defined.

(** ** The entry point *)

(** C6, as the code has it. When the results directory does not exist,
    [main] prints the message that names it and returns 1, and the only
    access to the file system is that one look-up. When it exists, [main]
    runs the report: it returns 0 if the report completes, and an
    exception of the report leaves [main], which ends the process with
    status 1. *)
Theorem main_exit_code {rendering : Rendering} (args : Args) (w : world) :
  (fs w !! results_dir args = None ->
   main args w
   = (Ok 1,
      World (experiments w) (fs w)
        (stdout w ++ ["Error: Results directory not found: "
                      +:+ results_dir args])
        (trace w ++ [EvExists (results_dir args)]))
   /\ exit_status args w = 1)
  /\
  (is_Some (fs w !! results_dir args) ->
   main args w
   = match generate_summary_report (results_dir args) (report_start args w) with
     | (Ok _, w') => (Ok 0, w')
     | (Raise e, w') => (Raise e, w')
     end
   /\ exit_status args w
      = match (generate_summary_report (results_dir args)
                 (report_start args w)).1 with
        | Ok _ => 0
        | Raise _ => 1
        end).
Proof.
  split.
  - intros Hnone. unfold exit_status, main, path_exists, log, lookup_node, print.
    unfold mbind, IO_bind, mret, IO_ret. simpl. rewrite Hnone. by simpl.
  - intros [node Hsome].
    assert (main args w
            = match generate_summary_report (results_dir args)
                      (report_start args w) with
              | (Ok _, w') => (Ok 0, w')
              | (Raise e, w') => (Raise e, w')
              end) as Hmain.
    { unfold main, path_exists, log, lookup_node, set_experiments, report_start.
      unfold mbind, IO_bind, mret, IO_ret. simpl. rewrite Hsome. simpl.
      by destruct (generate_summary_report _ _) as [[] ?]. }
    split; [exact Hmain|].
    unfold exit_status. rewrite Hmain.
    by destruct (generate_summary_report _ _) as [[] ?].
Qed.

Lemma main_exit_code_witness :
  (main (rendering := blank_rendering) (console_args "missing") small_results).1 = Ok 1
  /\ trace (main (rendering := blank_rendering) (console_args "missing")
              small_results).2
     = [EvExists "missing"]
  /\ exit_status (rendering := blank_rendering) (console_args "results") small_results
     = 0.
Proof.
  destruct (main_exit_code (rendering := blank_rendering) (console_args "missing")
              small_results) as [Hmissing _].
  destruct (main_exit_code (rendering := blank_rendering) (console_args "results")
              small_results) as [_ Hthere].
  destruct (Hmissing ltac:(vm_compute; reflexivity)) as [Hmain _].
  destruct (Hthere ltac:(eexists; vm_compute; reflexivity)) as [_ Hstatus].
  rewrite Hmain, Hstatus.
  split; [reflexivity|]. split; [reflexivity|]. vm_compute. reflexivity.
Defined.

(** C6 as it is written fails: the directory exists, yet listing
    [basic_pipeline] raises [NotADirectoryError], which leaves [main]; the
    exit status is 1, whatever the rendering. *)
Lemma existing_directory_exit_status_1 :
  is_Some (fs file_for_experiment !! "results")
  /\ forall R : Rendering,
       (main (rendering := R) (console_args "results") file_for_experiment).1
       = Raise NotADirectoryError
       /\ exit_status (rendering := R) (console_args "results") file_for_experiment = 1.
Proof.
  split; [eexists; vm_compute; reflexivity|].
  intros R. split; vm_compute; reflexivity.
Qed.

(** ** The comparison rows *)

Lemma comparison_rows_inner exp_name acc (wls : list (string * workload_data)) :
  foldl (fun a wl => a ++ [make_row exp_name wl.1 wl.2]) acc wls
  = acc ++ ((fun wl => make_row exp_name wl.1 wl.2) <$> wls).
Proof.
  revert acc. induction wls as [|wl wls IH]; intros acc; simpl.
  - by rewrite app_nil_r.
  - rewrite IH. by rewrite <- app_assoc.
Qed.

Lemma comparison_rows_triples exps :
  comparison_rows exps
  = (fun t : string * string * workload_data => make_row t.1.1 t.1.2 t.2)
    <$> triples exps.
Proof.
  unfold comparison_rows, triples.
  assert (forall acc,
            foldl (fun comparison_data exp =>
                     foldl (fun a wl => a ++ [make_row exp.1 wl.1 wl.2])
                           comparison_data exp.2) acc exps
            = acc ++ ((fun t : string * string * workload_data =>
                         make_row t.1.1 t.1.2 t.2)
                      <$> (exp ← exps;
                           (fun wl : string * workload_data =>
                              (exp.1, wl.1, wl.2)) <$> exp.2))) as Hgen.
  { induction exps as [|exp exps IH]; intros acc; simpl.
    - by rewrite app_nil_r.
    - rewrite IH, comparison_rows_inner, fmap_app, <- app_assoc.
      f_equal. f_equal. rewrite <- list_fmap_compose. reflexivity. }
  exact (Hgen []).
Qed.

Lemma make_row_field exp_name workload_name data key :
  key ∈ row_keys ->
  row_field (make_row exp_name workload_name data) key
  = Some (match stats data !! key with
          | Some v => v
          | None => PyInt 0
          end).
Proof.
  unfold row_keys. rewrite !elem_of_cons, elem_of_nil.
  intros [-> | [-> | [-> | [-> | [-> | [-> | []]]]]]]; reflexivity.
Qed.

Lemma keeps_bind {A B : Type} (c : IO A) (k : A -> IO B) :
  keeps_experiments c -> (forall a, keeps_experiments (k a)) ->
  keeps_experiments (c ≫= k).
Proof.
  intros Hc Hk w. unfold mbind, IO_bind. specialize (Hc w).
  destruct (c w) as [[a|e] w1]; simpl in *; [|exact Hc].
  by rewrite (Hk a w1).
Qed.

Lemma keeps_ret {A : Type} (a : A) : keeps_experiments (mret a).
Proof. by intros w. Qed.

Lemma keeps_lift {A : Type} (r : result A) : keeps_experiments (lift_result r).
Proof. by intros w. Qed.

Lemma keeps_print line : keeps_experiments (print line).
Proof. by intros w. Qed.

Lemma keeps_log ev : keeps_experiments (log ev).
Proof. by intros w. Qed.

Lemma keeps_lookup_node p : keeps_experiments (lookup_node p).
Proof. by intros w. Qed.

Lemma keeps_get_experiments : keeps_experiments get_experiments.
Proof. by intros w. Qed.

Lemma keeps_write_text p content : keeps_experiments (write_text p content).
Proof.
  unfold write_text. apply keeps_bind; [apply keeps_log|]. intros _.
  apply keeps_bind; [apply keeps_lookup_node|]. intros [[]|];
    first [apply keeps_lift | by intros w].
Qed.

Lemma generate_performance_comparison_keeps {rendering : Rendering}
    results_base_dir :
  keeps_experiments (generate_performance_comparison results_base_dir).
Proof.
  unfold generate_performance_comparison.
  apply keeps_bind; [apply keeps_print|]. intros _.
  apply keeps_bind; [apply keeps_get_experiments|]. intros exps.
  destruct (comparison_rows exps).
  - apply keeps_bind; [apply keeps_print|]. intros _. apply keeps_ret.
  - repeat (apply keeps_bind;
            [first [apply keeps_print | apply keeps_write_text]|];
            intros _).
    apply keeps_ret.
Qed.

(** C7. The aggregation builds one row for each (experiment, workload,
    report) triple, in order; the six numeric columns of a row hold the
    value of the report under that name, and 0 when the report has no
    such name. The default is used for the row only: after the
    aggregation the analyzer holds the same reports as before, and a
    report has no entry for a metric whose pattern did not match. *)
Theorem rows_default_to_zero {rendering : Rendering} results_base_dir w :
  comparison_rows (experiments w)
  = (fun t : string * string * workload_data => make_row t.1.1 t.1.2 t.2)
    <$> triples (experiments w)
  /\ (forall exp_name workload_name data key,
        key ∈ row_keys ->
        row_field (make_row exp_name workload_name data) key
        = Some (match stats data !! key with
                | Some v => v
                | None => PyInt 0
                end))
  /\ experiments (generate_performance_comparison results_base_dir w).2
     = experiments w
  /\ (forall content m metric pattern,
        (metric, pattern) ∈ patterns ->
        re_search pattern content = None ->
        parse_stats_text content = Ok m ->
        m !! metric = None).
Proof.
  split; [apply comparison_rows_triples|].
  split; [apply make_row_field|].
  split; [apply generate_performance_comparison_keeps|].
  intros content m metric pattern Hin Hnone Hp.
  by rewrite (parse_stats_text_metric content m metric pattern Hp Hin), Hnone.
Qed.

(** A report without [ipc] gives a row whose [ipc] is 0, and the report
    still has no [ipc]. *)
Lemma rows_default_to_zero_witness :
  let data := WorkloadData {[ "sim_seconds" := PyInt 2 ]} None in
  row_field (make_row "basic_pipeline" "hello" data) "ipc" = Some (PyInt 0)
  /\ row_field (make_row "basic_pipeline" "hello" data) "sim_seconds"
     = Some (PyInt 2)
  /\ stats data !! "ipc" = None.
Proof.
  intros data.
  destruct (rows_default_to_zero (rendering := blank_rendering) "results"
              (World [("basic_pipeline", [("hello", data)])] ∅ [] []))
    as (_ & Hfield & _ & _).
  rewrite (Hfield "basic_pipeline" "hello" data "ipc")
    by (unfold row_keys; apply list_elem_of_here).
  rewrite (Hfield "basic_pipeline" "hello" data "sim_seconds")
    by (unfold row_keys; apply list_elem_of_further, list_elem_of_here).
  repeat split; vm_compute; reflexivity.
Defined.

(** ** Averages by label *)

Lemma add_values_pair s n xs :
  add_values (s, n) xs = (foldl (SFadd prec emax) s xs, (n + length xs)%nat).
Proof.
  revert s n. induction xs as [|x xs IH]; intros s n; simpl.
  - by rewrite Nat.add_0_r.
  - unfold add_values in *. simpl. rewrite IH. f_equal. lia.
Qed.

Lemma group_add_lookup acc label x label' :
  group_add acc label x !! label'
  = if decide (label = label')
    then Some (add_values (default (f_zero, 0%nat) (acc !! label)) [x])
    else acc !! label'.
Proof.
  unfold group_add.
  destruct (default (f_zero, 0%nat) (acc !! label)) as [s n] eqn:E.
  rewrite lookup_insert. by destruct (decide (label = label')).
Qed.

Lemma values_of_cons label l x labelled :
  values_of label ((l, x) :: labelled)
  = if decide (l = label) then x :: values_of label labelled
    else values_of label labelled.
Proof.
  unfold values_of. rewrite filter_cons. simpl.
  by destruct (decide (l = label)).
Qed.

Lemma group_fold_lookup labelled acc label :
  foldl (fun a lx => group_add a lx.1 lx.2) acc labelled !! label
  = match values_of label labelled with
    | [] => acc !! label
    | xs => Some (add_values (default (f_zero, 0%nat) (acc !! label)) xs)
    end.
Proof.
  revert acc. induction labelled as [|[l x] labelled IH]; intros acc.
  - reflexivity.
  - cbn [foldl fst snd]. rewrite IH, group_add_lookup, values_of_cons.
    destruct (decide (l = label)) as [->|Hne]; [|reflexivity].
    cbn [default]. by destruct (values_of label labelled).
Qed.

(** The sum and the count a label ends with are those of its values. *)
Lemma group_sums_lookup labelled label :
  group_sums labelled !! label
  = match values_of label labelled with
    | [] => None
    | xs => Some (foldl (SFadd prec emax) f_zero xs, length xs)
    end.
Proof.
  unfold group_sums. rewrite group_fold_lookup, lookup_empty. simpl.
  destruct (values_of label labelled) as [|x xs]; [reflexivity|].
  by rewrite add_values_pair.
Qed.


Lemma values_of_nonempty label labelled :
  label ∈ labelled.*1 -> values_of label labelled <> [].
Proof.
  induction labelled as [|[l x] labelled IH]; simpl.
  - intros Hin. by apply elem_of_nil in Hin.
  - rewrite values_of_cons, elem_of_cons.
    destruct (decide (l = label)) as [->|Hne]; [discriminate|].
    intros [->|Hin]; [done | by apply IH].
Qed.

Lemma mapM_result_length {A B : Type} (f : A -> result B) l k :
  mapM f l = Ok k -> length k = length l.
Proof.
  revert k. induction l as [|x l IH]; intros k.
  - by intros [= <-].
  - change (mapM f (x :: l))
      with (y ← f x; k' ← mapM f l; mret (y :: k')).
    unfold mbind, result_bind, mret, result_ret.
    destruct (f x) as [y|]; [|intros [=]].
    destruct (mapM f l) as [k'|]; [|intros [=]].
    intros [= <-]. simpl. f_equal. by apply IH.
Qed.

Lemma doubles_literal :
  py_float "1.0" = Ok double_1 /\ py_float "2.0" = Ok double_2
  /\ py_float "3.0" = Ok double_3.
Proof. repeat split; vm_compute; reflexivity. Qed.





(** * Further properties of the extraction *)

#[local] Opaque extract_metrics.

(** ** When [parse_stats_text] raises *)




(** ** The names a report holds *)

(** X3. A report holds nothing but metrics of the catalog and the four
    derived metrics. *)
Theorem report_keys content m k :
  parse_stats_text content = Ok m ->
  is_Some (m !! k) ->
  k ∈ catalog_keys \/ k ∈ derived_keys.
Proof.
  intros Hp Hk.
  destruct (decide (k ∈ derived_keys)) as [|Hnd]; [by right|]. left.
  rewrite (parse_stats_text_primary content m k Hp Hnd) in Hk.
  destruct (decide (k ∈ catalog_keys)) as [|Hnc]; [assumption|].
  rewrite (extract_metrics_other content k Hnc) in Hk.
  by destruct Hk.
Qed.

Lemma report_keys_witness :
  "icache_hit_rate" ∈ catalog_keys \/ "icache_hit_rate" ∈ derived_keys.
Proof.
  apply (report_keys cache_sample (report_of cache_sample)).
  - vm_compute. reflexivity.
  - eexists. vm_compute. reflexivity.
Defined.

(** ** The type of a stored value *)



(** ** Ratios that are exact *)

Lemma SFdiv_self sa sb (a : positive) :
  SFdiv prec emax (S754_finite sa a 0) (S754_finite sb a 0)
  = S754_finite (xorb sa sb) 4503599627370496 (-52).
Proof.
  unfold SFdiv, SFdiv_core_binary.
  replace (Zdigits2 (Z.pos a) + 0 - (Zdigits2 (Z.pos a) + 0)) with 0
    by (symmetry; apply Z.sub_diag).
  change (Z.min (fexp prec emax 0) (0 - 0)) with (-53).
  change (0 - 0 - -53) with 53.
  rewrite Z.shiftl_mul_pow2 by lia.
  pose proof (Z.div_mul (2 ^ 53) (Z.pos a) ltac:(lia)) as Hq.
  pose proof (Z.mod_mul (2 ^ 53) (Z.pos a) ltac:(lia)) as Hr.
  rewrite (Z.mul_comm (2 ^ 53)) in Hq, Hr.
  unfold Z.div, Z.modulo in Hq, Hr.
  destruct (Z.div_eucl (Z.pos a * 2 ^ 53) (Z.pos a)) as [q r].
  subst q r.
  assert (new_location (Z.pos a) 0 = loc_Exact) as ->.
  { unfold new_location, new_location_even, new_location_odd.
    by destruct (Z.even (Z.pos a)). }
  by destruct sa, sb; vm_compute.
Qed.

Lemma rate_all_hits h : 0 < h -> rate_value h 0 = f_one.
Proof.
  intros Hh. unfold rate_value. rewrite Z.add_0_r.
  apply Z.ltb_lt in Hh as Hlt. rewrite Hlt. unfold int_quotient.
  destruct h as [|p|p]; [lia | | lia]. exact (SFdiv_self false false p).
Qed.

Lemma rate_no_hits ms : 0 < ms -> rate_value 0 ms = f_zero.
Proof.
  intros Hm. unfold rate_value. rewrite Z.add_0_l.
  apply Z.ltb_lt in Hm as Hlt. rewrite Hlt. unfold int_quotient.
  by destruct ms.
Qed.

Lemma accuracy_no_misprediction p : 0 < p -> accuracy_value p 0 = f_one.
Proof.
  intros Hp. unfold accuracy_value.
  apply Z.ltb_lt in Hp as Hlt. rewrite Hlt. unfold int_quotient.
  by destruct p.
Qed.

Lemma accuracy_all_mispredicted p : 0 < p -> accuracy_value p p = f_zero.
Proof.
  intros Hp. unfold accuracy_value.
  apply Z.ltb_lt in Hp as Hlt. rewrite Hlt. unfold int_quotient.
  destruct p as [|p|p]; [lia | | lia].
  change (SFsub prec emax f_one
            (SFdiv prec emax (S754_finite false p 0) (S754_finite false p 0))
          = f_zero).
  rewrite SFdiv_self. vm_compute. reflexivity.
Qed.

(** X5. A cache that never missed has a hit rate of exactly 1.0, and one that
    never hit has exactly 0.0: no rounding is left in either. *)
Theorem hit_rate_exact cache content m h ms :
  cache ∈ caches ->
  parse_stats_text content = Ok m ->
  m !! (cache +:+ "_overall_hits") = Some (PyInt h) ->
  m !! (cache +:+ "_overall_misses") = Some (PyInt ms) ->
  0 < h + ms ->
  (ms = 0 -> m !! (cache +:+ "_hit_rate") = Some (PyFloat f_one))
  /\ (h = 0 -> m !! (cache +:+ "_hit_rate") = Some (PyFloat f_zero)).
Proof.
  intros Hc Hp Hh Hm Hpos.
  rewrite (report_hit_rate cache content m Hc Hp), Hh, Hm.
  split; intros ->.
  - by rewrite rate_all_hits by lia.
  - by rewrite rate_no_hits by lia.
Qed.

Lemma hit_rate_exact_witness :
  report_of all_hits_sample !! "dcache_hit_rate" = Some (PyFloat f_one).
Proof.
  pose proof (hit_rate_exact "dcache" all_hits_sample
                (report_of all_hits_sample) 7 0) as H.
  destruct H as [H _].
  - unfold caches. apply list_elem_of_further, list_elem_of_here.
  - vm_compute. reflexivity.
  - vm_compute. reflexivity.
  - vm_compute. reflexivity.
  - lia.
  - exact (H eq_refl).
Defined.

(** X6. With no misprediction the accuracy is exactly 1.0, and with every
    prediction wrong it is exactly 0.0. *)
Theorem accuracy_exact content m p i :
  parse_stats_text content = Ok m ->
  m !! "branch_condPredicted" = Some (PyInt p) ->
  m !! "branch_condIncorrect" = Some (PyInt i) ->
  0 < p ->
  (i = 0 -> m !! "branch_accuracy" = Some (PyFloat f_one))
  /\ (i = p -> m !! "branch_accuracy" = Some (PyFloat f_zero)).
Proof.
  intros Hp Hpred Hinc Hpos.
  rewrite (report_accuracy content m Hp), Hpred, Hinc.
  split; intros ->.
  - by rewrite accuracy_no_misprediction.
  - by rewrite accuracy_all_mispredicted.
Qed.

Lemma accuracy_exact_witness :
  report_of all_wrong_sample !! "branch_accuracy" = Some (PyFloat f_zero).
Proof.
  pose proof (accuracy_exact all_wrong_sample
                (report_of all_wrong_sample) 40 40) as H.
  destruct H as [_ H].
  - vm_compute. reflexivity.
  - vm_compute. reflexivity.
  - vm_compute. reflexivity.
  - lia.
  - exact (H eq_refl).
Defined.

(** ** The type of a derived metric *)

(** X7. A derived metric of a report, the branch accuracy or the hit rate of
    a cache, is always a float: never an [int] and never text. *)
Theorem derived_metrics_are_floats content m k v :
  parse_stats_text content = Ok m ->
  k ∈ derived_keys ->
  m !! k = Some v ->
  exists f, v = PyFloat f.
Proof.
  intros Hp Hk Hv. unfold derived_keys in Hk.
  rewrite !elem_of_cons, elem_of_nil in Hk.
  assert (k = "branch_accuracy"
          \/ exists cache, cache ∈ caches /\ k = cache +:+ "_hit_rate")
    as [->|(cache & Hc & ->)].
  { destruct Hk as [-> | [-> | [-> | [-> | []]]]]; [by left|..]; right.
    - exists "icache". split; [in_list | reflexivity].
    - exists "dcache". split; [in_list | reflexivity].
    - exists "l2cache". split; [in_list | reflexivity]. }
  - rewrite (report_accuracy content m Hp) in Hv.
    destruct (m !! "branch_condPredicted") as [[p| |]|]; try discriminate Hv.
    destruct (m !! "branch_condIncorrect") as [[i| |]|]; try discriminate Hv.
    injection Hv as <-. by eexists.
  - rewrite (report_hit_rate cache content m Hc Hp) in Hv.
    destruct (m !! (cache +:+ "_overall_hits")) as [[h| |]|];
      try discriminate Hv.
    destruct (m !! (cache +:+ "_overall_misses")) as [[ms| |]|];
      try discriminate Hv.
    injection Hv as <-. by eexists.
Qed.

Lemma derived_metrics_are_floats_witness :
  exists f, PyFloat double_0_8 = PyFloat f.
Proof.
  apply (derived_metrics_are_floats cache_sample (report_of cache_sample)
           "icache_hit_rate" (PyFloat double_0_8)).
  - vm_compute. reflexivity.
  - in_list.
  - vm_compute. reflexivity.
Defined.

(** * The footprint of a run *)

Lemma string_app_assoc (a b c : string) : (a +:+ b) +:+ c = a +:+ (b +:+ c).
Proof.
  induction a as [|x a IH]; [reflexivity|].
  change (String x ((a +:+ b) +:+ c) = String x (a +:+ (b +:+ c))).
  by rewrite IH.
Qed.

Lemma under_base base : under base base.
Proof. by left. Qed.

Lemma under_join base p name : under base p -> under base (path_join p name).
Proof.
  unfold under, path_join. intros [-> | [rest ->]]; right.
  - by exists name.
  - exists (rest +:+ "/" +:+ name). by rewrite !string_app_assoc.
Qed.

Section Footprint.
Context {rendering : Rendering}.
Context (R : relation world) `{!PreOrder R} (base : string).
Hypothesis R_log : forall ev w, under base (ev_path ev) -> R w (log ev w).2.
Hypothesis R_print : forall line w, R w (print line w).2.
Hypothesis R_store :
  forall p content w, p ∈ output_files base -> R w (store_file p content w).2.
Hypothesis R_set : forall e w, R w (set_experiments e w).2.

Lemma respects_bind {A B : Type} (c : IO A) (k : A -> IO B) :
  respects R c -> (forall a, respects R (k a)) -> respects R (c ≫= k).
Proof.
  intros Hc Hk w. unfold mbind, IO_bind. specialize (Hc w).
  destruct (c w) as [[a|e] w1]; simpl in *; [|exact Hc].
  etrans; [exact Hc | apply Hk].
Qed.

Lemma respects_pure {A : Type} (c : IO A) :
  (forall w, (c w).2 = w) -> respects R c.
Proof. intros Hc w. by rewrite Hc. Qed.

Lemma respects_ret {A : Type} (a : A) : respects R (mret a).
Proof. by apply respects_pure. Qed.

Lemma respects_lift {A : Type} (r : result A) : respects R (lift_result r).
Proof. by apply respects_pure. Qed.

Lemma respects_lookup_node p : respects R (lookup_node p).
Proof. by apply respects_pure. Qed.

Lemma respects_get_experiments : respects R get_experiments.
Proof. by apply respects_pure. Qed.

Lemma respects_foldM {A B : Type} (f : B -> A -> IO B) (l : list A) :
  (forall b a, respects R (f b a)) -> forall b, respects R (foldM f l b).
Proof.
  intros Hf. induction l as [|a l IH]; intros b; simpl.
  - apply respects_ret.
  - apply respects_bind; [apply Hf | exact IH].
Qed.

Lemma respects_path_exists p : under base p -> respects R (path_exists p).
Proof.
  intros Hp. unfold path_exists.
  apply respects_bind; [intros w; by apply R_log|]. intros _.
  apply respects_bind; [apply respects_lookup_node|]. intros n.
  apply respects_ret.
Qed.

Lemma respects_is_dir p : under base p -> respects R (is_dir p).
Proof.
  intros Hp. unfold is_dir.
  apply respects_bind; [intros w; by apply R_log|]. intros _.
  apply respects_bind; [apply respects_lookup_node|]. intros n.
  apply respects_ret.
Qed.

Lemma respects_iterdir p : under base p -> respects R (iterdir p).
Proof.
  intros Hp. unfold iterdir.
  apply respects_bind; [intros w; by apply R_log|]. intros _.
  apply respects_bind; [apply respects_lookup_node|].
  intros [[]|]; first [apply respects_ret | apply respects_lift].
Qed.

Lemma respects_read_text p : under base p -> respects R (read_text p).
Proof.
  intros Hp. unfold read_text.
  apply respects_bind; [intros w; by apply R_log|]. intros _.
  apply respects_bind; [apply respects_lookup_node|].
  intros [[]|]; first [apply respects_ret | apply respects_lift].
Qed.

Lemma respects_write_text p content :
  under base p -> p ∈ output_files base -> respects R (write_text p content).
Proof.
  intros Hp Hout. unfold write_text.
  apply respects_bind; [intros w; by apply R_log|]. intros _.
  apply respects_bind; [apply respects_lookup_node|].
  intros [[]|];
    first [apply respects_lift | intros w; by apply R_store].
Qed.

Lemma respects_parse_stats_file p :
  under base p -> respects R (parse_stats_file p).
Proof.
  intros Hp. unfold parse_stats_file.
  apply respects_bind; [by apply respects_path_exists|]. intros [|]; simpl.
  - apply respects_bind; [by apply respects_read_text|]. intros content.
    apply respects_lift.
  - apply respects_bind; [intros w; apply R_print|]. intros _.
    apply respects_ret.
Qed.

Lemma respects_load_workload exp_path data name :
  under base exp_path -> respects R (load_workload exp_path data name).
Proof.
  intros Hp. unfold load_workload.
  apply respects_bind; [by apply respects_is_dir, under_join|].
  intros [|]; [|apply respects_ret].
  apply respects_bind;
    [by apply respects_parse_stats_file, under_join, under_join|].
  intros st.
  apply respects_bind;
    [by apply respects_path_exists, under_join, under_join|].
  intros has_config. apply respects_ret.
Qed.

Lemma respects_load_experiment_data exp_path :
  under base exp_path -> respects R (load_experiment_data exp_path).
Proof.
  intros Hp. unfold load_experiment_data.
  apply respects_bind; [by apply respects_iterdir|]. intros names.
  apply respects_foldM. intros data name. by apply respects_load_workload.
Qed.

Lemma respects_load_experiment u exp_dir :
  respects R (load_experiment base u exp_dir).
Proof.
  unfold load_experiment.
  apply respects_bind;
    [apply respects_path_exists, under_join, under_base|].
  intros [|]; [|apply respects_ret].
  apply respects_bind;
    [apply respects_load_experiment_data, under_join, under_base|].
  intros data.
  apply respects_bind; [apply respects_get_experiments|]. intros exps.
  intros w. apply R_set.
Qed.

Lemma respects_load_experiment_results :
  respects R (load_experiment_results base).
Proof.
  unfold load_experiment_results. apply respects_foldM.
  intros u exp_dir. apply respects_load_experiment.
Qed.

Lemma respects_print line : respects R (print line).
Proof. intros w. apply R_print. Qed.

Lemma respects_print_4f label v : respects R (print_4f label v).
Proof.
  unfold print_4f. apply respects_bind; [apply respects_lift|].
  intros s. apply respects_print.
Qed.

Lemma respects_generate_performance_comparison :
  respects R (generate_performance_comparison base).
Proof.
  unfold generate_performance_comparison.
  apply respects_bind; [apply respects_print|]. intros _.
  apply respects_bind; [apply respects_get_experiments|]. intros exps.
  destruct (comparison_rows exps).
  - apply respects_bind; [apply respects_print|]. intros _.
    apply respects_ret.
  - apply respects_bind; [apply respects_print|]. intros _.
    apply respects_bind; [apply respects_print|]. intros _.
    apply respects_bind.
    { apply respects_write_text; [apply under_join, under_base|].
      unfold output_files. apply list_elem_of_here. }
    intros _. apply respects_bind; [apply respects_print|]. intros _.
    apply respects_ret.
Qed.

Lemma respects_plot_ipc_comparison df :
  respects R (plot_ipc_comparison base df).
Proof.
  unfold plot_ipc_comparison. destruct df as [[|r rows]|];
    try apply respects_ret.
  apply respects_bind; [|intros _; apply respects_print].
  apply respects_write_text; [apply under_join, under_base|].
  unfold output_files. apply list_elem_of_further, list_elem_of_here.
Qed.

Lemma respects_analyze_branch_prediction_impact :
  respects R analyze_branch_prediction_impact.
Proof.
  unfold analyze_branch_prediction_impact.
  apply respects_bind; [apply respects_get_experiments|]. intros exps.
  destruct (odict_get _ exps); [|apply respects_print].
  apply respects_bind; [apply respects_print|]. intros _.
  apply respects_foldM. intros u wl.
  apply respects_bind; [apply respects_print|]. intros _.
  apply respects_bind; [apply respects_print_4f|]. intros _.
  apply respects_bind; [apply respects_print_4f|]. intros _.
  apply respects_bind; [apply respects_print|]. intros _.
  apply respects_print.
Qed.

Lemma respects_analyze_superscalar_scaling :
  respects R analyze_superscalar_scaling.
Proof.
  unfold analyze_superscalar_scaling.
  apply respects_bind; [apply respects_get_experiments|]. intros exps.
  destruct (odict_get _ exps); [|apply respects_print].
  apply respects_bind; [apply respects_print|]. intros _.
  apply respects_foldM. intros u wl.
  apply respects_bind; [apply respects_print|]. intros _.
  apply respects_bind; [apply respects_print_4f|]. intros _.
  apply respects_bind; [apply respects_print_4f|]. intros _.
  apply respects_bind; [apply respects_print_4f|]. intros _.
  apply respects_print_4f.
Qed.

Lemma respects_print_averages avgs : respects R (print_averages avgs).
Proof.
  unfold print_averages. apply respects_foldM. intros u e.
  apply respects_print.
Qed.

Lemma respects_key_insights df : respects R (key_insights df).
Proof.
  unfold key_insights. destruct df as [[|r rows]|]; try apply respects_ret.
  apply respects_bind; [apply respects_lift|]. intros col.
  destruct (idxmax col ≫= _); [|apply respects_ret].
  apply respects_bind; [apply respects_lift|]. intros s.
  apply respects_bind; [apply respects_print|]. intros _.
  apply respects_bind; [apply respects_lift|]. intros workload_avg.
  apply respects_bind; [apply respects_print|]. intros _.
  apply respects_bind; [apply respects_print_averages|]. intros _.
  apply respects_bind; [apply respects_lift|]. intros exp_avg.
  apply respects_bind; [apply respects_print|]. intros _.
  apply respects_print_averages.
Qed.

Lemma respects_generate_summary_report :
  respects R (generate_summary_report base).
Proof.
  unfold generate_summary_report.
  apply respects_bind; [apply respects_print|]. intros _.
  apply respects_bind; [apply respects_print|]. intros _.
  apply respects_bind; [apply respects_print|]. intros _.
  apply respects_bind; [apply respects_load_experiment_results|]. intros _.
  apply respects_bind; [apply respects_generate_performance_comparison|].
  intros df.
  apply respects_bind; [apply respects_plot_ipc_comparison|]. intros _.
  apply respects_bind; [apply respects_analyze_branch_prediction_impact|].
  intros _.
  apply respects_bind; [apply respects_analyze_superscalar_scaling|].
  intros _.
  apply respects_bind; [apply respects_print|]. intros _.
  apply respects_bind; [apply respects_key_insights|]. intros _.
  apply respects_bind; [apply respects_print|]. intros _.
  apply respects_print.
Qed.

Lemma respects_main args : results_dir args = base -> respects R (main args).
Proof.
  intros Hbase. unfold main. rewrite Hbase.
  apply respects_bind; [apply respects_path_exists, under_base|].
  intros [|]; simpl.
  - apply respects_bind; [intros w; apply R_set|]. intros _.
    apply respects_bind; [apply respects_generate_summary_report|].
    intros _. apply respects_ret.
  - apply respects_bind; [apply respects_print|]. intros _.
    apply respects_ret.
Qed.

End Footprint.

#[local] Instance same_fs_preorder : PreOrder same_fs.
Proof.
  split; [by intros w|]. intros w1 w2 w3 H12 H23. unfold same_fs in *.
  by rewrite H23.
Qed.

#[local] Instance same_experiments_preorder : PreOrder same_experiments.
Proof.
  split; [by intros w|]. intros w1 w2 w3 H12 H23.
  unfold same_experiments in *. by rewrite H23.
Qed.

#[local] Instance same_fs_but_preorder ps : PreOrder (same_fs_but ps).
Proof.
  split; [by intros w p|]. intros w1 w2 w3 H12 H23 p Hp.
  by rewrite (H23 p Hp), (H12 p Hp).
Qed.

#[local] Instance touches_under_preorder base : PreOrder (touches_under base).
Proof.
  split.
  - intros w. exists []. by rewrite app_nil_r.
  - intros w1 w2 w3 (evs1 & H1 & F1) (evs2 & H2 & F2).
    exists (evs1 ++ evs2). rewrite H2, H1, app_assoc.
    split; [reflexivity | by apply Forall_app].
Qed.

Lemma load_experiment_results_same_fs results_base_dir :
  respects same_fs (load_experiment_results results_base_dir).
Proof.
  by apply (respects_load_experiment_results same_fs results_base_dir).
Qed.

(** X8. The loading of the experiments only reads: whether it returns or
    raises, the file system is the one it started with. *)
Theorem loading_only_reads results_base_dir w :
  fs (load_experiment_results results_base_dir w).2 = fs w.
Proof. apply load_experiment_results_same_fs. Qed.

(** X9. Whatever [main] does, it changes no path of the file system but the
    CSV table and the figure in the results directory. *)
Theorem main_writes_only_outputs {rendering : Rendering} args w p :
  p ∉ output_files (results_dir args) ->
  fs (main args w).2 !! p = fs w !! p.
Proof.
  revert w p.
  apply (respects_main (same_fs_but (output_files (results_dir args)))
           (results_dir args)); try done.
  intros q content w Hq p Hp. simpl.
  apply lookup_insert_ne. by intros ->.
Qed.

Lemma main_writes_only_outputs_witness :
  fs (main (rendering := blank_rendering) (console_args "results")
        small_results).2 !! "results/basic_pipeline/hello/stats.txt"
  = Some (File "system.cpu.ipc 0.75").
Proof.
  rewrite (main_writes_only_outputs (rendering := blank_rendering)
             (console_args "results") small_results
             "results/basic_pipeline/hello/stats.txt").
  - vm_compute. reflexivity.
  - apply (bool_decide_unpack _). vm_compute. exact I.
Defined.

(** X10. Every access of [main] to the file system, a look-up, a listing, a
    read or a write, is at the results directory or below it. *)
Theorem main_stays_in_results_dir {rendering : Rendering} args w :
  exists evs,
    trace (main args w).2 = trace w ++ evs
    /\ Forall (fun ev => under (results_dir args) (ev_path ev)) evs.
Proof.
  apply (respects_main (touches_under (results_dir args))
           (results_dir args)); try done.
  - intros ev w0 Hev. exists [ev]. split; [reflexivity|]. by apply Forall_singleton.
  - intros line w0. exists []. simpl. by rewrite app_nil_r.
  - intros q content w0 _. exists []. simpl. by rewrite app_nil_r.
  - intros e w0. exists []. simpl. by rewrite app_nil_r.
Qed.

(** * What the loading finds *)

Lemma bind_run {A B : Type} (c : IO A) (k : A -> IO B) w :
  (c ≫= k) w
  = match c w with
    | (Ok a, w1) => k a w1
    | (Raise e, w1) => (Raise e, w1)
    end.
Proof. reflexivity. Qed.

Lemma bind_returns {A B : Type} (c : IO A) (k : A -> IO B) w b w' :
  (c ≫= k) w = (Ok b, w') ->
  exists a w1, c w = (Ok a, w1) /\ k a w1 = (Ok b, w').
Proof.
  rewrite bind_run. destruct (c w) as [[a|e] w1]; [|done].
  intros Hk. by exists a, w1.
Qed.

Lemma odict_set_fresh {V : Type} k (v : V) d :
  k ∉ d.*1 -> odict_set k v d = d ++ [(k, v)].
Proof.
  induction d as [|[k' v'] d IH]; simpl; [done|].
  rewrite not_elem_of_cons. intros [Hne Hd].
  destruct (String.eqb k' k) eqn:E.
  - apply String.eqb_eq in E. by subst.
  - by rewrite IH.
Qed.

Lemma path_exists_run p w :
  path_exists p w
  = (Ok (bool_decide (is_Some (fs w !! p))),
     World (experiments w) (fs w) (stdout w) (trace w ++ [EvExists p])).
Proof. reflexivity. Qed.

Lemma is_dir_run p w :
  is_dir p w
  = (Ok (has_dir (fs w) p),
     World (experiments w) (fs w) (stdout w) (trace w ++ [EvIsDir p])).
Proof. reflexivity. Qed.

Lemma iterdir_run p w :
  iterdir p w
  = (match fs w !! p with
     | Some (Dir entries) => Ok entries
     | Some (File _) => Raise NotADirectoryError
     | None => Raise FileNotFoundError
     end,
     World (experiments w) (fs w) (stdout w) (trace w ++ [EvIterdir p])).
Proof.
  unfold iterdir, log, lookup_node, mbind, IO_bind. simpl.
  by destruct (fs w !! p) as [[]|].
Qed.

Lemma load_experiment_data_same_fs exp_path :
  respects same_fs (load_experiment_data exp_path).
Proof.
  apply (respects_load_experiment_data same_fs exp_path); try done.
  apply under_base.
Qed.

Lemma load_experiment_data_same_experiments exp_path :
  respects same_experiments (load_experiment_data exp_path).
Proof.
  apply (respects_load_experiment_data same_experiments exp_path); try done.
  apply under_base.
Qed.

(** One turn of the loop over the experiment directories. *)
Lemma load_experiment_returns base u d w w1 :
  load_experiment base u d w = (Ok tt, w1) ->
  fs w1 = fs w
  /\ exists data,
       experiments w1
       = if bool_decide (is_Some (fs w !! path_join base d))
         then odict_set d data (experiments w)
         else experiments w.
Proof.
  unfold load_experiment. rewrite bind_run, path_exists_run.
  destruct (bool_decide _).
  - intros (data & w2 & Hdata & Hset)%bind_returns.
    pose proof (load_experiment_data_same_fs (path_join base d)
                  (World (experiments w) (fs w) (stdout w)
                     (trace w ++ [EvExists (path_join base d)]))) as Hfs.
    pose proof (load_experiment_data_same_experiments (path_join base d)
                  (World (experiments w) (fs w) (stdout w)
                     (trace w ++ [EvExists (path_join base d)]))) as Hexp.
    rewrite Hdata in Hfs, Hexp. unfold same_fs, same_experiments in *.
    simpl in *. injection Hset as <-. simpl. split; [done|].
    exists data. by rewrite Hexp.
  - intros [= <-]. split; [done|]. by exists [].
Qed.

Lemma load_experiments_keys base ds u w w' :
  NoDup ds ->
  (forall d, d ∈ ds -> d ∉ (experiments w).*1) ->
  foldM (load_experiment base) ds u w = (Ok tt, w') ->
  fs w' = fs w
  /\ (experiments w').*1
     = (experiments w).*1
       ++ filter (fun d => is_Some (fs w !! path_join base d)) ds.
Proof.
  revert u w. induction ds as [|d ds IH]; intros [] w Hnd Hfresh; simpl.
  - intros [= <-]. by rewrite app_nil_r.
  - intros ([] & w1 & Hstep & Hrest)%bind_returns.
    apply NoDup_cons in Hnd as [Hd Hnd].
    destruct (load_experiment_returns base tt d w w1 Hstep)
      as (Hfs & data & Hexp).
    assert ((experiments w1).*1
            = (experiments w).*1
              ++ (if bool_decide (is_Some (fs w !! path_join base d))
                  then [d] else [])) as Hkeys.
    { rewrite Hexp. destruct (bool_decide _).
      - rewrite odict_set_fresh, fmap_app; [done|].
        apply Hfresh, list_elem_of_here.
      - by rewrite app_nil_r. }
    destruct (IH tt w1 Hnd) as [Hfs' Hkeys']; [|exact Hrest|].
    { intros d' Hd'. rewrite Hkeys, elem_of_app. intros [Hin|Hin].
      - by apply (Hfresh d'); [apply list_elem_of_further|].
      - destruct (bool_decide _); [|by apply elem_of_nil in Hin].
        apply list_elem_of_singleton in Hin. by subst. }
    split; [by rewrite Hfs'|].
    rewrite Hkeys', Hkeys, Hfs, <- app_assoc. f_equal.
    rewrite filter_cons. destruct (decide _) as [Hs|Hs].
    + by rewrite (bool_decide_eq_true_2 _ Hs).
    + by rewrite (bool_decide_eq_false_2 _ Hs).
Qed.

(** X11. After a loading that returned, the analyzer of [main] holds one
    entry for each experiment directory that exists, in the order of the
    fixed list, whatever the directory holds. *)
Theorem loaded_experiments results_base_dir w w' :
  experiments w = [] ->
  load_experiment_results results_base_dir w = (Ok tt, w') ->
  (experiments w').*1
  = filter (fun d => is_Some (fs w !! path_join results_base_dir d))
           experiment_dirs.
Proof.
  intros Hempty Hload.
  destruct (load_experiments_keys results_base_dir experiment_dirs tt w w')
    as [_ Hkeys]; [| |exact Hload|].
  - apply (bool_decide_unpack _). vm_compute. exact I.
  - intros d _. rewrite Hempty. apply not_elem_of_nil.
  - by rewrite Hkeys, Hempty.
Qed.

Lemma loaded_experiments_witness :
  (experiments (load_experiment_results "results" small_results).2).*1
  = ["basic_pipeline"].
Proof.
  rewrite (loaded_experiments "results" small_results
             (load_experiment_results "results" small_results).2).
  - vm_compute. reflexivity.
  - reflexivity.
  - vm_compute. reflexivity.
Defined.

Lemma read_text_run p w :
  read_text p w
  = (match fs w !! p with
     | Some (File content) => Ok content
     | Some (Dir _) => Raise IsADirectoryError
     | None => Raise FileNotFoundError
     end,
     World (experiments w) (fs w) (stdout w) (trace w ++ [EvOpenRead p])).
Proof.
  unfold read_text, log, lookup_node, mbind, IO_bind. simpl.
  by destruct (fs w !! p) as [[]|].
Qed.

Lemma parse_stats_file_returns p w st w1 :
  parse_stats_file p w = (Ok st, w1) ->
  fs w1 = fs w
  /\ st = match fs w !! p with
          | Some (File content) => report_of content
          | _ => ∅
          end.
Proof.
  unfold parse_stats_file. rewrite bind_run, path_exists_run.
  destruct (fs w !! p) as [[content|entries]|] eqn:Hp.
  - rewrite bool_decide_eq_true_2 by (by eexists).
    cbn [negb]. rewrite bind_run, read_text_run. cbn [fs]. rewrite Hp.
    unfold lift_result, report_of.
    destruct (parse_stats_text content) as [m|e]; [|intros [=]].
    intros [= <- <-]. by split.
  - rewrite bool_decide_eq_true_2 by (by eexists).
    cbn [negb]. rewrite bind_run, read_text_run. cbn [fs]. rewrite Hp.
    intros [=].
  - rewrite bool_decide_eq_false_2 by (by intros [? [=]]).
    cbn [negb]. intros [= <- <-]. by split.
Qed.

(** One turn of the loop over the entries of an experiment directory. *)
Lemma load_workload_returns exp_path data name w data' w1 :
  load_workload exp_path data name w = (Ok data', w1) ->
  fs w1 = fs w
  /\ data' = if has_dir (fs w) (path_join exp_path name)
             then odict_set name (workload_entry (fs w) exp_path name) data
             else data.
Proof.
  unfold load_workload. rewrite bind_run, is_dir_run.
  destruct (has_dir _ _).
  - intros (st & w2 & Hst & Hrest)%bind_returns.
    apply parse_stats_file_returns in Hst as [Hfs ->].
    rewrite bind_run, path_exists_run in Hrest. injection Hrest as <- <-.
    cbn [fs] in *. rewrite Hfs. by split.
  - intros [= <- <-]. by split.
Qed.

Lemma load_workloads_entries exp_path names data w data' w' :
  NoDup names ->
  (forall n, n ∈ names -> n ∉ data.*1) ->
  foldM (load_workload exp_path) names data w = (Ok data', w') ->
  data'
  = data
    ++ ((fun n => (n, workload_entry (fs w) exp_path n))
        <$> filter (fun n => has_dir (fs w) (path_join exp_path n)) names).
Proof.
  revert data w. induction names as [|n names IH]; intros data w Hnd Hfresh;
    simpl.
  - intros [= <- <-]. by rewrite app_nil_r.
  - intros (data1 & w1 & Hstep & Hrest)%bind_returns.
    apply NoDup_cons in Hnd as [Hn Hnd].
    destruct (load_workload_returns exp_path data n w data1 w1 Hstep)
      as (Hfs & Hdata).
    assert (data1
            = data ++ (if has_dir (fs w) (path_join exp_path n)
                       then [(n, workload_entry (fs w) exp_path n)]
                       else [])) as Hentries.
    { rewrite Hdata. destruct (has_dir _ _).
      - apply odict_set_fresh, Hfresh, list_elem_of_here.
      - by rewrite app_nil_r. }
    rewrite (IH data1 w1 Hnd); [|
      |exact Hrest].
    + rewrite Hentries, Hfs, <- app_assoc. f_equal.
      rewrite filter_cons. destruct (decide _) as [Hs|Hs].
      * by rewrite (Is_true_true_1 _ Hs).
      * by rewrite (Is_true_false_1 _ Hs).
    + intros n' Hn'. rewrite Hentries, fmap_app, elem_of_app.
      intros [Hin|Hin].
      * by apply (Hfresh n'); [apply list_elem_of_further|].
      * destruct (has_dir _ _); [|by apply elem_of_nil in Hin].
        apply list_elem_of_singleton in Hin. simpl in Hin. by subst.
Qed.

(** X12. Of the entries of an experiment directory, the workloads loaded are
    the ones that are directories, in the order of the listing; regular
    files beside them are passed over. Each workload gets the report of
    its [stats.txt], the empty report when it has none, and the path of
    its [config.ini] when it has one. *)
Theorem loaded_workloads exp_path names w data w' :
  fs w !! exp_path = Some (Dir names) ->
  NoDup names ->
  load_experiment_data exp_path w = (Ok data, w') ->
  data
  = (fun n => (n, workload_entry (fs w) exp_path n))
    <$> filter (fun n => has_dir (fs w) (path_join exp_path n)) names.
Proof.
  intros Hdir Hnd. unfold load_experiment_data.
  rewrite bind_run, iterdir_run, Hdir. intros Hfold.
  rewrite (load_workloads_entries exp_path names [] _ data w' Hnd
             ltac:(by intros ? _ ?%elem_of_nil) Hfold).
  reflexivity.
Qed.

Lemma loaded_workloads_witness :
  (load_experiment_data "results/superscalar" mixed_results).1
  = Ok [ ("matrix",
          WorkloadData {[ "ipc" := PyInt 2 ]}
            (Some "results/superscalar/matrix/config.ini"));
         ("sort", WorkloadData ∅ None) ].
Proof.
  destruct (load_experiment_data "results/superscalar" mixed_results)
    as [[data|e] w'] eqn:Hload; [|by vm_compute in Hload].
  rewrite (loaded_workloads "results/superscalar"
             ["matrix"; "notes.txt"; "sort"] mixed_results data w').
  - vm_compute. reflexivity.
  - vm_compute. reflexivity.
  - apply (bool_decide_unpack _). vm_compute. exact I.
  - exact Hload.
Defined.

(** * A results directory without experiments *)

(** X13. When the results directory exists and holds none of the four
    experiment directories, [main] returns 0 after a report that says
    so: ten lines, no file written, and five look-ups. *)
Theorem empty_results_report {rendering : Rendering} args w :
  is_Some (fs w !! results_dir args) ->
  (forall d, d ∈ experiment_dirs ->
             fs w !! path_join (results_dir args) d = None) ->
  main args w
  = (Ok 0,
     World [] (fs w) (stdout w ++ empty_report)
       (trace w
        ++ EvExists (results_dir args)
           :: ((fun d => EvExists (path_join (results_dir args) d))
               <$> experiment_dirs))).
Proof.
  intros Hdir Hnone.
  assert (fs w !! path_join (results_dir args) "basic_pipeline" = None) as H1
    by (apply Hnone; in_list).
  assert (fs w !! path_join (results_dir args) "branch_prediction" = None)
    as H2 by (apply Hnone; in_list).
  assert (fs w !! path_join (results_dir args) "superscalar" = None) as H3
    by (apply Hnone; in_list).
  assert (fs w !! path_join (results_dir args) "smt" = None) as H4
    by (apply Hnone; in_list).
  unfold main, generate_summary_report, load_experiment_results.
  unfold experiment_dirs, foldM, load_experiment, path_exists.
  unfold generate_performance_comparison, plot_ipc_comparison.
  unfold analyze_branch_prediction_impact, analyze_superscalar_scaling.
  unfold key_insights, log, lookup_node, print, get_experiments.
  unfold set_experiments, mbind, IO_bind, mret, IO_ret. simpl.
  rewrite (bool_decide_eq_true_2 _ Hdir). simpl.
  rewrite H1. simpl. rewrite H2. simpl. rewrite H3. simpl. rewrite H4. simpl.
  unfold empty_report. rewrite <- !app_assoc. reflexivity.
Qed.

Lemma empty_results_report_witness :
  stdout (main (rendering := blank_rendering) (console_args "results")
            empty_results).2
  = empty_report.
Proof.
  rewrite (empty_results_report (rendering := blank_rendering)
             (console_args "results") empty_results).
  - reflexivity.
  - eexists. vm_compute. reflexivity.
  - intros d Hd. unfold experiment_dirs in Hd.
    rewrite !elem_of_cons, elem_of_nil in Hd.
    destruct Hd as [-> | [-> | [-> | [-> | []]]]]; vm_compute; reflexivity.
Defined.

(** * The text analyses *)

Lemma py_format_4f_cases {rendering : Rendering} v :
  match py_format_4f v with
  | Ok _ => has_4f v = true
  | Raise e => has_4f v = false /\ (e = ValueError \/ e = OverflowError)
  end.
Proof.
  destruct v as [z|f|s]; simpl; [|done|by auto].
  unfold float_of_int. destruct (is_inf _); simpl; by auto.
Qed.

Lemma print_4f_cases {rendering : Rendering} label v w :
  match (print_4f label v w).1 with
  | Ok _ => has_4f v = true
  | Raise e => has_4f v = false /\ (e = ValueError \/ e = OverflowError)
  end.
Proof.
  unfold print_4f. rewrite bind_run. unfold lift_result.
  pose proof (py_format_4f_cases v) as H.
  by destruct (py_format_4f v).
Qed.

(** A loop over the workloads whose body returns exactly on the
    workloads that satisfy [P]. *)
Lemma foldM_unit_cases {A : Type} (f : unit -> A -> IO unit)
    (P : A -> bool) (E : PyExn -> Prop) (l : list A) :
  (forall u x w, match (f u x w).1 with
                 | Ok _ => P x = true
                 | Raise e => P x = false /\ E e
                 end) ->
  forall u w, match (foldM f l u w).1 with
              | Ok _ => forallb P l = true
              | Raise e => forallb P l = false /\ E e
              end.
Proof.
  intros Hf. induction l as [|x l IH]; intros u w; simpl; [done|].
  rewrite bind_run. specialize (Hf u x w).
  destruct (f u x w) as [[u'|e] w1]; simpl in *.
  - rewrite Hf. simpl. apply IH.
  - destruct Hf as [-> He]. by split.
Qed.

Lemma branch_body_cases {rendering : Rendering} (u : unit)
    (wl : string * workload_data) w :
  match ((let st := stats wl.2 in
          _ ← print (nl +:+ str_upper wl.1 +:+ ":");
          _ ← print_4f "  IPC: " (stats_get st "ipc");
          _ ← print_4f "  Branch Accuracy: " (stats_get st "branch_accuracy");
          _ ← print ("  Branch Lookups: "
                     +:+ py_str (stats_get st "branch_lookups"));
          print ("  Branch Mispredictions: "
                 +:+ py_str (stats_get st "branch_condIncorrect"))) w).1 with
  | Ok _ => printable branch_keys wl = true
  | Raise e => printable branch_keys wl = false
               /\ (e = ValueError \/ e = OverflowError)
  end.
Proof.
  cbv zeta. unfold printable, branch_keys. cbn [forallb].
  rewrite bind_run. cbn [print]. rewrite bind_run.
  match goal with
  | |- context [print_4f ?l ?v ?w0] =>
      pose proof (print_4f_cases l v w0) as H1;
      destruct (print_4f l v w0) as [[?|e1] w1]
  end; simpl in H1.
  2:{ destruct H1 as [-> He]. by split. }
  rewrite H1. cbn [andb]. rewrite bind_run.
  match goal with
  | |- context [print_4f ?l ?v ?w0] =>
      pose proof (print_4f_cases l v w0) as H2;
      destruct (print_4f l v w0) as [[?|e2] w2]
  end; simpl in H2.
  2:{ destruct H2 as [-> He]. by split. }
  rewrite H2. reflexivity.
Qed.

(** X14. When the analyzer holds a branch prediction experiment, the branch
    analysis returns exactly when the IPC and the branch accuracy of
    every workload can be printed with [.4f]: a float, or an [int] within
    the doubles. Otherwise it raises [ValueError] or [OverflowError]; a
    token that was kept as a string does so. *)
Theorem branch_analysis_returns {rendering : Rendering} w bp :
  odict_get "branch_prediction" (experiments w) = Some bp ->
  match (analyze_branch_prediction_impact w).1 with
  | Ok _ => forallb (printable branch_keys) bp = true
  | Raise e => forallb (printable branch_keys) bp = false
               /\ (e = ValueError \/ e = OverflowError)
  end.
Proof.
  intros Hbp. unfold analyze_branch_prediction_impact.
  rewrite bind_run. cbn [get_experiments]. rewrite Hbp, bind_run.
  cbn [print].
  apply (foldM_unit_cases _ (printable branch_keys)
           (fun e => e = ValueError \/ e = OverflowError)).
  intros u wl w0. apply (branch_body_cases u).
Qed.

Lemma branch_analysis_returns_witness :
  exists e,
    (analyze_branch_prediction_impact (rendering := blank_rendering)
       raw_ipc_loaded).1 = Raise e
    /\ (e = ValueError \/ e = OverflowError).
Proof.
  pose proof (branch_analysis_returns (rendering := blank_rendering)
                raw_ipc_loaded
                [ ("hello",
                   WorkloadData (report_of "system.cpu.ipc 1.2.3") None) ]
                eq_refl) as H.
  destruct (analyze_branch_prediction_impact raw_ipc_loaded).1 as [u|e].
  - vm_compute in H. discriminate H.
  - exists e. split; [reflexivity | exact (proj2 H)].
Defined.

Lemma scaling_body_cases {rendering : Rendering} (u : unit)
    (wl : string * workload_data) w :
  match ((let st := stats wl.2 in
          _ ← print (nl +:+ str_upper wl.1 +:+ ":");
          _ ← print_4f "  IPC: " (stats_get st "ipc");
          _ ← print_4f "  Fetch Rate: " (stats_get st "fetch_rate");
          _ ← print_4f "  Decode Rate: " (stats_get st "decode_rate");
          print_4f "  Commit Rate: " (stats_get st "commit_rate")) w).1 with
  | Ok _ => printable scaling_keys wl = true
  | Raise e => printable scaling_keys wl = false
               /\ (e = ValueError \/ e = OverflowError)
  end.
Proof.
  cbv zeta. unfold printable, scaling_keys. cbn [forallb].
  rewrite bind_run. cbn [print].
  do 3 (rewrite bind_run;
        match goal with
        | |- context [print_4f ?l ?v ?w0] =>
            let H := fresh "H" in
            pose proof (print_4f_cases l v w0) as H;
            destruct (print_4f l v w0) as [[?|?] ?]; simpl in H;
            [rewrite H; cbn [andb] | destruct H as [-> ?]; by split]
        end).
  match goal with
  | |- context [print_4f ?l ?v ?w0] =>
      pose proof (print_4f_cases l v w0) as H4;
      destruct (print_4f l v w0) as [[?|?] ?]; simpl in H4
  end.
  - by rewrite H4.
  - destruct H4 as [-> ?]. by split.
Qed.

(** X15. When the analyzer holds a superscalar experiment, the scaling
    analysis returns exactly when the IPC and the fetch, decode and
    commit rates of every workload can be printed with [.4f]; a rate the
    report lacks is printed as 0. *)
Theorem scaling_analysis_returns {rendering : Rendering} w ss :
  odict_get "superscalar" (experiments w) = Some ss ->
  match (analyze_superscalar_scaling w).1 with
  | Ok _ => forallb (printable scaling_keys) ss = true
  | Raise e => forallb (printable scaling_keys) ss = false
               /\ (e = ValueError \/ e = OverflowError)
  end.
Proof.
  intros Hss. unfold analyze_superscalar_scaling.
  rewrite bind_run. cbn [get_experiments]. rewrite Hss, bind_run.
  cbn [print].
  apply (foldM_unit_cases _ (printable scaling_keys)
           (fun e => e = ValueError \/ e = OverflowError)).
  intros u wl w0. apply (scaling_body_cases u).
Qed.

Lemma scaling_analysis_returns_witness :
  (analyze_superscalar_scaling (rendering := blank_rendering)
     scaling_loaded).1 = Ok tt.
Proof.
  pose proof (scaling_analysis_returns (rendering := blank_rendering)
                scaling_loaded
                [ ("hello",
                   WorkloadData (report_of "system.cpu.ipc 1.5") None) ]
                eq_refl) as H.
  destruct (analyze_superscalar_scaling scaling_loaded).1 as [[]|e].
  - reflexivity.
  - destruct H as [H _]. vm_compute in H. discriminate H.
Defined.

(** * The best row *)




(** * The groups of an average *)

#[local] Instance label_le_trans : Transitive label_le.
Proof. intros a b c. unfold label_le. apply transitivity. Qed.

#[local] Instance label_le_total : Total label_le.
Proof. intros a b. unfold label_le. apply total, _. Qed.

Lemma group_means_labels labelled :
  (group_means labelled).*1
  = (merge_sort label_le (map_to_list (group_sums labelled))).*1.
Proof.
  unfold group_means. rewrite <- list_fmap_compose. reflexivity.
Qed.

(** X17. The averages of a grouping come one for each label of the rows, each
    label once and the labels in increasing order, as the lines of the
    report show them. *)
Theorem averages_one_per_label (key : row -> string) (df : list row) avgs :
  groupby_ipc_mean key df = Ok avgs ->
  StronglySorted String.le avgs.*1
  /\ NoDup avgs.*1
  /\ forall label, label ∈ avgs.*1 <-> label ∈ key <$> df.
Proof.
  unfold groupby_ipc_mean.
  destruct (mapM as_float64 (ipc <$> df)) as [col|e] eqn:Hcol; [|done].
  intros [= <-]. rewrite group_means_labels.
  pose proof (mapM_result_length _ _ _ Hcol) as Hlen.
  rewrite length_fmap in Hlen.
  assert (key <$> df = (zip (key <$> df) col).*1) as Hfst
    by (symmetry; apply fst_zip; rewrite length_fmap; lia).
  set (labelled := zip (key <$> df) col) in *. clearbody labelled.
  rewrite Hfst. clear Hfst.
  split; [|split].
  - apply (StronglySorted_fmap fst label_le String.le).
    + by intros a b.
    + apply StronglySorted_merge_sort; apply _.
  - rewrite merge_sort_Permutation. apply NoDup_fst_map_to_list.
  - intros label. rewrite merge_sort_Permutation.
    rewrite list_elem_of_fmap. split.
    + intros ([l sn] & -> & Hin). apply elem_of_map_to_list in Hin.
      rewrite group_sums_lookup in Hin. simpl.
      destruct (values_of l labelled) as [|v vs] eqn:Hv; [done|].
      unfold values_of in Hv.
      assert (v ∈ (filter (fun lx : string * spec_float => lx.1 = l)
                     labelled).*2) as Hin'
        by (rewrite Hv; apply list_elem_of_here).
      apply list_elem_of_fmap in Hin' as ([l' v'] & _ & Hf).
      apply list_elem_of_filter in Hf as [Hl Hf]. simpl in Hl. subst l'.
      apply list_elem_of_fmap. by exists (l, v').
    + intros Hin. apply values_of_nonempty in Hin.
      destruct (values_of label labelled) as [|v vs] eqn:Hv; [done|].
      exists (label, (foldl (SFadd prec emax) f_zero (v :: vs),
                      length (v :: vs))).
      split; [reflexivity|].
      apply elem_of_map_to_list. by rewrite group_sums_lookup, Hv.
Qed.

Lemma averages_one_per_label_witness :
  exists avgs,
    groupby_ipc_mean experiment ipc_rows = Ok avgs
    /\ StronglySorted String.le avgs.*1
    /\ NoDup avgs.*1.
Proof.
  destruct (groupby_ipc_mean experiment ipc_rows) as [avgs|e] eqn:Havgs;
    [|by vm_compute in Havgs].
  exists avgs. split; [reflexivity|].
  destruct (averages_one_per_label experiment ipc_rows avgs Havgs)
    as (Hsorted & Hnodup & _).
  by split.
Defined.

(** * The files of a report *)

Lemma write_text_run p content w :
  write_text p content w
  = match fs w !! p with
    | Some (Dir _) =>
        (Raise IsADirectoryError,
         World (experiments w) (fs w) (stdout w) (trace w ++ [EvOpenWrite p]))
    | _ =>
        (Ok tt,
         World (experiments w) (<[p := File content]> (fs w)) (stdout w)
               (trace w ++ [EvOpenWrite p]))
    end.
Proof.
  unfold write_text, log, lookup_node, store_file, mbind, IO_bind. simpl.
  by destruct (fs w !! p) as [[]|].
Qed.

Lemma write_text_returns p content w w1 :
  write_text p content w = (Ok tt, w1) ->
  fs w1 = <[p := File content]> (fs w) /\ experiments w1 = experiments w.
Proof.
  rewrite write_text_run.
  destruct (fs w !! p) as [[]|]; intros [= <-]; by split.
Qed.

Lemma print_run line w :
  print line w
  = (Ok tt, World (experiments w) (fs w) (stdout w ++ [line]) (trace w)).
Proof. reflexivity. Qed.

Lemma csv_plot_paths base : csv_path base <> plot_path base.
Proof.
  unfold csv_path, plot_path, path_join. intros H.
  apply (inj (String.app base)) in H. discriminate H.
Qed.

(** The comparison, when it returns. *)
Lemma generate_performance_comparison_returns {rendering : Rendering}
    base w df w1 :
  generate_performance_comparison base w = (Ok df, w1) ->
  experiments w1 = experiments w
  /\ match comparison_rows (experiments w) with
     | [] => df = None /\ fs w1 = fs w
     | rows => df = Some rows
               /\ fs w1 = <[csv_path base := File (df_to_csv rows)]> (fs w)
     end.
Proof.
  unfold generate_performance_comparison.
  rewrite bind_run, print_run, bind_run. cbn [get_experiments experiments].
  destruct (comparison_rows (experiments w)) as [|r rows].
  - rewrite bind_run, print_run. intros [= <- <-]. by split.
  - rewrite bind_run, print_run, bind_run, print_run.
    intros ([] & w2 & Hw & Hrest)%bind_returns.
    apply write_text_returns in Hw as [Hfs Hexp]. cbn [fs experiments] in *.
    rewrite bind_run, print_run in Hrest. injection Hrest as <- <-.
    by split.
Qed.

(** The figure, when it returns. *)
Lemma plot_ipc_comparison_returns {rendering : Rendering} base df w w1 :
  plot_ipc_comparison base df w = (Ok tt, w1) ->
  experiments w1 = experiments w
  /\ match df with
     | None | Some [] => fs w1 = fs w
     | Some rows => fs w1 = <[plot_path base := File (ipc_figure rows)]> (fs w)
     end.
Proof.
  unfold plot_ipc_comparison. destruct df as [[|r rows]|].
  - by intros [= <-].
  - intros ([] & w2 & Hw & Hrest)%bind_returns.
    apply write_text_returns in Hw as [Hfs Hexp].
    rewrite print_run in Hrest. injection Hrest as <-. by split.
  - by intros [= <-].
Qed.

Lemma text_analyses_keep {rendering : Rendering} :
  (forall R : relation world,
     PreOrder R ->
     (forall line w, R w (print line w).2) ->
     respects R analyze_branch_prediction_impact
     /\ respects R analyze_superscalar_scaling
     /\ forall df, respects R (key_insights df)).
Proof.
  intros R HR Hprint. split; [|split].
  - by apply respects_analyze_branch_prediction_impact.
  - by apply respects_analyze_superscalar_scaling.
  - intros df. by apply respects_key_insights.
Qed.

(** X18. When [main] returns 0, the rows of the table are those of the
    experiments the analyzer holds at the end. If there is none, the file
    system is as it was before the run. Otherwise the CSV file holds the
    rendering of these rows and the figure file the plot of the same
    rows. *)
Theorem report_files {rendering : Rendering} args w w' :
  main args w = (Ok 0, w') ->
  match comparison_rows (experiments w') with
  | [] => fs w' = fs w
  | rows =>
      fs w' !! csv_path (results_dir args) = Some (File (df_to_csv rows))
      /\ fs w' !! plot_path (results_dir args) = Some (File (ipc_figure rows))
      /\ forall p, p <> csv_path (results_dir args) ->
                   p <> plot_path (results_dir args) ->
                   fs w' !! p = fs w !! p
  end.
Proof.
  unfold main. rewrite bind_run, path_exists_run.
  destruct (bool_decide _); cbn [negb]; [|by rewrite bind_run, print_run].
  rewrite bind_run. cbn [set_experiments].
  intros ([] & w9 & Hreport & [= <-])%bind_returns.
  set (base := results_dir args) in *.
  unfold generate_summary_report in Hreport.
  rewrite bind_run, print_run, bind_run, print_run, bind_run, print_run
    in Hreport.
  cbn [experiments fs stdout trace] in Hreport.
  apply bind_returns in Hreport as ([] & w1 & Hload & Hreport).
  apply bind_returns in Hreport as (df & w2 & Hcmp & Hreport).
  apply bind_returns in Hreport as ([] & w3 & Hplot & Hreport).
  apply bind_returns in Hreport as ([] & w4 & Hbp & Hreport).
  apply bind_returns in Hreport as ([] & w5 & Hss & Hreport).
  rewrite bind_run, print_run in Hreport.
  apply bind_returns in Hreport as ([] & w6 & Hkey & Hreport).
  rewrite bind_run, print_run, print_run in Hreport.
  injection Hreport as <-. cbn [experiments fs].
  pose proof (load_experiment_results_same_fs base
                (World [] (fs w)
                   (((stdout w ++ [nl +:+ rule])
                     ++ ["           GEM5 ILP EXPERIMENT SUMMARY REPORT"])
                    ++ [rule])
                   (trace w ++ [EvExists base]))) as Hfs1.
  rewrite Hload in Hfs1. unfold same_fs in Hfs1. cbn [fs snd] in Hfs1.
  apply generate_performance_comparison_returns in Hcmp as [Hexp2 Hcmp].
  apply plot_ipc_comparison_returns in Hplot as [Hexp3 Hplot].
  destruct (text_analyses_keep same_fs _ ltac:(done)) as (Fbp & Fss & Fkey).
  destruct (text_analyses_keep same_experiments _ ltac:(done))
    as (Ebp & Ess & Ekey).
  specialize (Fbp w3). specialize (Fss w4). specialize (Fkey df
    (World (experiments w5) (fs w5)
       (stdout w5 ++ [nl +:+ "=== Key Insights ==="]) (trace w5))).
  specialize (Ebp w3). specialize (Ess w4). specialize (Ekey df
    (World (experiments w5) (fs w5)
       (stdout w5 ++ [nl +:+ "=== Key Insights ==="]) (trace w5))).
  rewrite Hbp in Fbp, Ebp. rewrite Hss in Fss, Ess. rewrite Hkey in Fkey, Ekey.
  unfold same_fs, same_experiments in *. cbn [fs experiments snd] in *.
  rewrite Ekey, Ess, Ebp, Hexp3, Hexp2, Fkey, Fss, Fbp.
  destruct (comparison_rows (experiments w1)) as [|r rows].
  - destruct Hcmp as [-> Hfs2]. by rewrite Hplot, Hfs2, Hfs1.
  - destruct Hcmp as [-> Hfs2]. rewrite Hplot, Hfs2, Hfs1.
    split; [|split].
    + rewrite lookup_insert_ne by (intros E; by apply (csv_plot_paths base)).
      by rewrite lookup_insert_eq.
    + by rewrite lookup_insert_eq.
    + intros p Hcsv Hpng. by rewrite !lookup_insert_ne.
Qed.

Lemma report_files_witness :
  fs (main (rendering := tagged_rendering) (console_args "results")
        small_results).2 !! "results/performance_comparison.csv"
  = Some (File "csv")
  /\ fs (main (rendering := tagged_rendering) (console_args "results")
           small_results).2 !! "results/ipc_comparison.png"
     = Some (File "png").
Proof.
  set (w' := (main (rendering := tagged_rendering) (console_args "results")
                small_results).2).
  assert (main (rendering := tagged_rendering) (console_args "results")
            small_results = (Ok 0, w')) as Hmain
    by (vm_compute; reflexivity).
  pose proof (report_files (rendering := tagged_rendering)
                (console_args "results") small_results w' Hmain) as H.
  assert (exists r rows, comparison_rows (experiments w') = r :: rows)
    as (r & rows & Hrows) by (vm_compute; eauto).
  rewrite Hrows in H.
  destruct H as (Hcsv & Hpng & _). split; [exact Hcsv | exact Hpng].
Defined.

(** * A stats file that exists *)



(** * The exceptions of a run *)

Section Raises.
Context {rendering : Rendering} (E : PyExn -> Prop).











Hypothesis E_not_a_directory : E NotADirectoryError.
Hypothesis E_is_a_directory : E IsADirectoryError.
Hypothesis E_overflow : E OverflowError.
Hypothesis E_value : E ValueError.
Hypothesis E_type : E TypeError.





















End Raises.


